(** * PinFlow: the campaign scheduler and the CSV export validator

    A shallow embedding of [src/utils/scheduling.ts] ([scheduleCampaign])
    and of [src/public/utils/csv] ([validateRow], [generateCSVString]),
    with the data model of [src/types.ts], and the properties of the
    scheduling and export pipeline proved over it.

    Conventions of the embedding:
    - a JS [number] that the code computes to an integer is a
      [Js.number]: [NaN] or an integer (exact in a double below 2^53);
      [pinsPerDay], which the caller gives, is a [Js.anyNumber]: it may
      also be a fraction or an infinity, and the arithmetic on a
      fraction rounds as IEEE 754 binary64 does;
    - a JS string is a [string]; its characters stand for code units;
    - an optional property ([scheduledDate?: string]) is an [option];
    - a function that may [throw] returns [Js.Thrown + A];
    - the [Date] built-ins follow the abstract operations of ECMA-262 over
      the proleptic Gregorian calendar; the host supplies the local time
      zone adjustment, which may change with the time (daylight saving,
      changes of zone), and the parse of the strings that are not in the
      date-only ISO form. *)

From Stdlib Require Import ZArith QArith Qround Qabs String Ascii List Lia Bool.
From stdpp Require Import base tactics option list strings pretty numbers.

Close Scope Q_scope.
Local Open Scope string_scope.

(** ** JavaScript values and built-ins used by the two modules *)

Module Js.

(** [number]: the values the scheduler computes with. *)
Inductive number : Type :=
| NaN
| Num (z : Z).

(** A number that need not be an integer: a [number], a finite value
    given as a fraction, or an infinity. The caller's [pinsPerDay] is
    one. *)
Inductive anyNumber : Type :=
| Whole (n : number)
| Frac (q : Q)
| Infinity (negative : bool).

Coercion Whole : number >-> anyNumber.

(** What a [throw] carries: [new Error(message)], or the [TypeError] the
    engine raises when a property of [undefined] is read. *)
Inductive Thrown : Type :=
| Error (message : string)
| TypeError.

Definition result (A : Type) : Type := (Thrown + A)%type.

Definition ret {A} (a : A) : result A := inr a.
Definition throw {A} (e : Thrown) : result A := inl e.
Definition bind {A B} (m : result A) (k : A -> result B) : result B :=
  match m with
  | inl e => inl e
  | inr a => k a
  end.

(** [xs.map(f)] when [f] may throw: elements are visited in order and the
    first exception ends the traversal. *)
Fixpoint mapM {A B} (f : A -> result B) (l : list A) : result (list B) :=
  match l with
  | [] => ret []
  | x :: l' =>
      bind (f x) (fun y => bind (mapM f l') (fun ys => ret (y :: ys)))
  end.

(** [xs.forEach((x, i) => ...)] when the callback may throw; [i] counts
    from [start]. *)
Fixpoint forEachM {A} (f : A -> nat -> result unit) (start : nat)
    (l : list A) : result unit :=
  match l with
  | [] => ret tt
  | x :: l' => bind (f x start) (fun _ => forEachM f (S start) l')
  end.

(** [xs.forEach((x, i) => ...)] for a callback that updates a local
    accumulator [S] (here: an array it pushes to). *)
Fixpoint forEachFrom {A S} (f : S -> A -> nat -> S) (start : nat)
    (l : list A) (s : S) : S :=
  match l with
  | [] => s
  | x :: l' => forEachFrom f (Datatypes.S start) l' (f s x start)
  end.

Definition forEach {A S} (f : S -> A -> nat -> S) (l : list A) (s : S) : S :=
  forEachFrom f 0 l s.

(** [xs.flatMap(f)] when [f] may throw. *)
Definition flatMapM {A B} (f : A -> result (list B)) (l : list A)
    : result (list B) :=
  bind (mapM f l) (fun ys => ret (concat ys)).

(** The double quote and the line feed. *)
Definition dquote : ascii := "034"%char.
Definition newline : ascii := "010"%char.

(** [!s] for a possibly undefined string: undefined and the empty string
    are falsy. *)
Definition falsy (o : option string) : bool :=
  match o with
  | None => true
  | Some EmptyString => true
  | Some (String _ _) => false
  end.

(** [s.startsWith(p)] *)
Definition startsWith (p s : string) : bool := String.prefix p s.

(** [s.includes(p)] *)
Fixpoint includes (p s : string) : bool :=
  String.prefix p s ||
  match s with
  | EmptyString => false
  | String _ s' => includes p s'
  end.

(** [s.replace(/Q/g, 'QQ')], Q being the double quote: every double
    quote of [s] is doubled. *)
Fixpoint doubleQuotes (s : string) : string :=
  match s with
  | EmptyString => EmptyString
  | String c s' =>
      if Ascii.eqb c dquote
      then String dquote (String dquote (doubleQuotes s'))
      else String c (doubleQuotes s')
  end.

(** Removes a double quote that ends the string. *)
Fixpoint dropLastQuote (s : string) : string :=
  match s with
  | EmptyString => EmptyString
  | String c EmptyString =>
      if Ascii.eqb c dquote then EmptyString else s
  | String c s' => String c (dropLastQuote s')
  end.

(** [s.replace(/^Q|Q$/g, '')], Q being the double quote: a leading
    double quote is removed, and a trailing one (a different character
    of the string) as well. *)
Definition stripQuotes (s : string) : string :=
  match s with
  | EmptyString => EmptyString
  | String c s' =>
      if Ascii.eqb c dquote then dropLastQuote s' else dropLastQuote s
  end.

(** [xs.join(sep)] *)
Fixpoint join (sep : string) (l : list string) : string :=
  match l with
  | [] => EmptyString
  | [x] => x
  | x :: l' => x +:+ sep +:+ join sep l'
  end.

(** [s.substring(0, n)] *)
Definition substring0 (n : nat) (s : string) : string :=
  String.substring 0 n s.

(** [String(n)] for a number. *)
Definition String_of (n : number) : string :=
  match n with
  | NaN => "NaN"
  | Num z => pretty z
  end.

Fixpoint repeatChar (n : nat) (c : ascii) : string :=
  match n with
  | O => EmptyString
  | S n' => String c (repeatChar n' c)
  end.

(** [s.padStart(n, c)] for a one-character filler. *)
Definition padStart (n : nat) (c : ascii) (s : string) : string :=
  repeatChar (n - String.length s) c +:+ s.

(** [a + b] on numbers. *)
Definition add (a b : number) : number :=
  match a, b with
  | Num x, Num y => Num (x + y)
  | _, _ => NaN
  end.

(** *** Arithmetic on fractions, as on doubles *)

(** The integer part: [Math.trunc], and what [ToIntegerOrInfinity] takes
    of a finite value. *)
Definition truncate (q : Q) : Z :=
  if Qle_bool 0 q then Qfloor q else Qceiling q.

(** The nearest integer, a tie going to the even one. *)
Definition roundHalfEven (q : Q) : Z :=
  let f := Qfloor q in
  match Qcompare (q - inject_Z f) (1 # 2) with
  | Lt => f
  | Gt => (f + 1)%Z
  | Eq => if Z.even f then f else (f + 1)%Z
  end.

(** The binary exponent of a value other than 0: the largest [e] with
    [2 ^ e] at most the absolute value. *)
Definition exponentOf (q : Q) : Z :=
  let e := (Z.log2 (Z.abs (Qnum q)) - Z.log2 (Zpos (Qden q)))%Z in
  if Qle_bool (Qpower 2 e) (Qabs q) then e else (e - 1)%Z.

(** The double nearest to [q]: 53 significant bits, a tie going to the
    even significand, fixed steps below [2 ^ -1022]. Values beyond the
    largest double are not treated: the scheduler, whose [pinsPerDay] is
    at least 1, divides and multiplies no such value. *)
Definition roundToDouble (q : Q) : Q :=
  if Qeq_bool q 0 then 0%Q
  else
    let ulp := Qpower 2 (Z.max (exponentOf q) (-1022) - 52) in
    Qred (inject_Z (roundHalfEven (q / ulp)) * ulp).

(** [x / y], [x * y] and [x % y] on doubles: the quotient and the
    product are rounded, the remainder (of the sign of [x]) is exact. *)
Definition fdiv (x y : Q) : Q := roundToDouble (x / y).
Definition fmul (x y : Q) : Q := roundToDouble (x * y).
Definition frem (x y : Q) : Q :=
  Qred (x - y * inject_Z (truncate (x / y))).

(** The fraction is an integer. *)
Definition isInteger (q : Q) : bool := Qeq_bool (inject_Z (Qfloor q)) q.

End Js.

Notation "'try' x <- m ;; k" := (Js.bind m (fun x => k))
  (at level 10, x name, m at level 99, k at level 200).
Notation "'run' m ;; k" := (Js.bind m (fun _ => k))
  (at level 10, m at level 99, k at level 200).
Notation "'when' c 'throw' e ;; k" := (if c then Js.throw e else k)
  (at level 10, c at level 99, e at level 99, k at level 200).

(** ** The [Date] object *)

Module JsDate.

Import Js.
Local Open Scope Z_scope.

Definition msPerDay : Z := 86400000.
Definition msPerHour : Z := 3600000.
Definition msPerMinute : Z := 60000.

(** The host: its local time zone adjustment in milliseconds, and how
    it parses the strings that are not in the date-only ISO form, which
    ECMA-262 leaves to the implementation. [LocalTZA t true] is the
    offset of local time from UTC at the time value [t];
    [LocalTZA t false] is the offset to take for the local time [t] (for
    a local time that a transition skips or repeats, the offset before
    the transition). The offset may change with [t]: daylight saving,
    changes of zone. *)
Record Host : Type := {
  LocalTZA : Z -> bool -> Z;
  parseOther : string -> number
}.

Definition Day (t : Z) : Z := t / msPerDay.
Definition TimeWithinDay (t : Z) : Z := t mod msPerDay.

(** Day number (days since 1970-01-01) of a calendar date, and back;
    months are 1..12 here. *)
Definition days_from_civil (y m d : Z) : Z :=
  let y' := if m <=? 2 then y - 1 else y in
  let era := y' / 400 in
  let yoe := y' - era * 400 in
  let mp := if m >? 2 then m - 3 else m + 9 in
  let doy := (153 * mp + 2) / 5 + d - 1 in
  let doe := yoe * 365 + yoe / 4 - yoe / 100 + doy in
  era * 146097 + doe - 719468.

Definition civil_from_days (z : Z) : Z * Z * Z :=
  let z' := z + 719468 in
  let era := z' / 146097 in
  let doe := z' - era * 146097 in
  let yoe := (doe - doe / 1460 + doe / 36524 - doe / 146096) / 365 in
  let doy := doe - (365 * yoe + yoe / 4 - yoe / 100) in
  let mp := (5 * doy + 2) / 153 in
  let d := doy - (153 * mp + 2) / 5 + 1 in
  let m := if mp <? 10 then mp + 3 else mp - 9 in
  let y := yoe + era * 400 in
  (if m <=? 2 then y + 1 else y, m, d).

Definition YearFromTime (t : Z) : Z := (civil_from_days (Day t)).1.1.
(** [MonthFromTime] counts from 0 (January). *)
Definition MonthFromTime (t : Z) : Z := (civil_from_days (Day t)).1.2 - 1.
Definition DateFromTime (t : Z) : Z := (civil_from_days (Day t)).2.
Definition HourFromTime (t : Z) : Z := (t / msPerHour) mod 24.
Definition MinFromTime (t : Z) : Z := (t / msPerMinute) mod 60.

Definition MakeTime (hour min sec ms : Z) : Z :=
  hour * msPerHour + min * msPerMinute + sec * 1000 + ms.
Definition MakeDay (year month date : Z) : Z :=
  days_from_civil (year + month / 12) (month mod 12 + 1) 1 + date - 1.
Definition MakeDate (day time : Z) : Z := day * msPerDay + time.
Definition TimeClip (t : Z) : number :=
  if Z.abs t >? 8640000000000000 then NaN else Num t.

Definition isLeap (y : Z) : bool :=
  ((y mod 4 =? 0) && negb (y mod 100 =? 0)) || (y mod 400 =? 0).

Definition DaysInMonth (y m : Z) : Z :=
  if m =? 2 then (if isLeap y then 29 else 28)
  else if (m =? 4) || (m =? 6) || (m =? 9) || (m =? 11) then 30
  else 31.

Definition digit (c : ascii) : option Z :=
  let n := Z.of_nat (nat_of_ascii c) in
  if (48 <=? n) && (n <=? 57) then Some (n - 48) else None.

(** The date-only ISO form [YYYY-MM-DD], read as midnight UTC. *)
Definition parseIsoDate (s : string) : option Z :=
  match s with
  | String y1 (String y2 (String y3 (String y4 (String "-"
      (String m1 (String m2 (String "-"
        (String d1 (String d2 EmptyString))))))))) =>
      match digit y1, digit y2, digit y3, digit y4,
            digit m1, digit m2, digit d1, digit d2 with
      | Some a, Some b, Some c, Some d, Some e, Some f, Some g, Some h =>
          let y := a * 1000 + b * 100 + c * 10 + d in
          let m := e * 10 + f in
          let dd := g * 10 + h in
          if (1 <=? m) && (m <=? 12) && (1 <=? dd) && (dd <=? DaysInMonth y m)
          then Some (MakeDate (days_from_civil y m dd) 0)
          else None
      | _, _, _, _, _, _, _, _ => None
      end
  | _ => None
  end.

Section Methods.

Variable host : Host.

Definition LocalTime (t : Z) : Z := t + LocalTZA host t true.
Definition UTC (t : Z) : Z := t - LocalTZA host t false.

(** [new Date(s)] for a string: the time value of the new object. *)
Definition parse (s : string) : number :=
  match parseIsoDate s with
  | Some t => TimeClip t
  | None => parseOther host s
  end.

Definition getter (f : Z -> Z) (tv : number) : number :=
  match tv with
  | NaN => NaN
  | Num t => Num (f (LocalTime t))
  end.

Definition getFullYear : number -> number := getter YearFromTime.
Definition getMonth : number -> number := getter MonthFromTime.
Definition getDate : number -> number := getter DateFromTime.
Definition getHours : number -> number := getter HourFromTime.
Definition getMinutes : number -> number := getter MinFromTime.

(** [d.setDate(dt)]: the new time value of [d]. *)
Definition setDate (tv : number) (dt : number) : number :=
  match tv, dt with
  | Num t, Num d =>
      let lt := LocalTime t in
      TimeClip (UTC (MakeDate
        (MakeDay (YearFromTime lt) (MonthFromTime lt) d)
        (TimeWithinDay lt)))
  | _, _ => NaN
  end.

(** [d.setHours(hour, min, sec, ms)]: the new time value of [d]. *)
Definition setHours (tv : number) (hour min sec ms : number) : number :=
  match tv, hour, min, sec, ms with
  | Num t, Num hour, Num min, Num sec, Num ms =>
      TimeClip (UTC (MakeDate (Day (LocalTime t))
                              (MakeTime hour min sec ms)))
  | _, _, _, _, _ => NaN
  end.

End Methods.

End JsDate.

(** ** The data model of [src/types.ts] *)

Module Types.

Import Js.

Record UrlAnalysis : Type := {
  topic : string;
  coreContent : string;
  primaryKeyword : string;
  secondaryKeywords : list string;
  searchIntent : string;
  mainBenefits : list string;
  targetAudience : string;
  visualAngleOpportunities : string
}.

Inductive TargetUserLevel : Type := Beginner | Advanced | All.
Inductive IntentType : Type := Informational | Commercial.
Inductive StyleType : Type :=
  Lifestyle | Editorial | Collage | StepFeature | CloseUpWide.
Inductive Distance : Type := CloseUp | Medium | Wide.
Inductive Lighting : Type := Warm | Neutral | Bright | Dramatic.

Record Strategy : Type := {
  seoAngle : string;
  emotionalTrigger : string;
  headlineStyle : string;
  visualStyle : string;
  targetUserLevel : TargetUserLevel;
  intentType : IntentType
}.

Record CompositionParams : Type := {
  cameraAngle : string;
  distance : Distance;
  lighting : Lighting
}.

Record VisualStrategy : Type := {
  styleType : StyleType;
  compositionParams : CompositionParams;
  textOverlay : string;
  supportingText : option string;
  imagePrompt : string;
  colorPalette : list string
}.

Record PerformanceIntelligence : Type := {
  viralHook : string;
  ctrBooster : string;
  distributionVelocity : string
}.

Record ExperimentationLayer : Type := {
  hypothesis : string;
  testMetric : string;
  winnerAction : string
}.

Record AuthorityLayer : Type := {
  nicheDominance : string;
  trustSignal : string;
  stabilityStrategy : string
}.

Record PinVariation : Type := {
  title : string;
  description : string;
  altText : string;
  suggestedBoards : list string;
  keywords : list string;
  strategy : Strategy;
  visualStrategy : VisualStrategy;
  performanceIntelligence : PerformanceIntelligence;
  experimentationLayer : ExperimentationLayer;
  authorityLayer : AuthorityLayer;
  scheduledDate : option string;
  generatedImageUrl : option string;
  publicMediaUrl : option string
}.

Record CampaignResult : Type := {
  sourceUrl : string;
  analysis : UrlAnalysis;
  variations : list PinVariation
}.

Record AppSettings : Type := {
  pinsPerDay : anyNumber;
  startDate : string;
  variationsPerUrl : number
}.

(** [{ ...variation, scheduledDate: d }] *)
Definition withScheduledDate (v : PinVariation) (d : string) : PinVariation :=
  {| title := title v;
     description := description v;
     altText := altText v;
     suggestedBoards := suggestedBoards v;
     keywords := keywords v;
     strategy := strategy v;
     visualStrategy := visualStrategy v;
     performanceIntelligence := performanceIntelligence v;
     experimentationLayer := experimentationLayer v;
     authorityLayer := authorityLayer v;
     scheduledDate := Some d;
     generatedImageUrl := generatedImageUrl v;
     publicMediaUrl := publicMediaUrl v |}.

(** [{ ...urlResult, variations: vs }] *)
Definition withVariations (r : CampaignResult) (vs : list PinVariation)
    : CampaignResult :=
  {| sourceUrl := sourceUrl r; analysis := analysis r; variations := vs |}.

End Types.

(** ** [src/utils/scheduling.ts] *)

Module Scheduling.

Import Js JsDate Types.

(** An element of [flattenedPins]. *)
Record FlatPin : Type := {
  url : string;
  variation : PinVariation;
  uIdx : nat;
  vIdx : nat
}.

(** An element of [scheduledFlat]: [{ ...item, dateStr }]. *)
Record ScheduledPin : Type := {
  item : FlatPin;
  dateStr : string
}.

(** [rawPinsPerDay || 3]: NaN and 0 are falsy. *)
Definition orThree (rawPinsPerDay : anyNumber) : anyNumber :=
  match rawPinsPerDay with
  | Whole NaN => Whole (Num 3)
  | Whole (Num z) => if (z =? 0)%Z then Whole (Num 3) else rawPinsPerDay
  | Frac q => if Qeq_bool q 0 then Whole (Num 3) else rawPinsPerDay
  | Infinity _ => rawPinsPerDay
  end.

(** [Math.max(1, x)] *)
Definition maxOne (x : anyNumber) : anyNumber :=
  match x with
  | Whole NaN => Whole NaN
  | Whole (Num z) => Whole (Num (Z.max 1 z))
  | Frac q => if Qle_bool 1 q then x else Whole (Num 1)
  | Infinity negative => if negative then Whole (Num 1) else x
  end.

(** [Math.max(1, rawPinsPerDay || 3)] *)
Definition effectivePinsPerDay (rawPinsPerDay : anyNumber) : anyNumber :=
  maxOne (orThree rawPinsPerDay).

(** The arithmetic of one slot, for the item at [index] of the flattened
    sequence ([%] is the remainder of the truncated division). *)
Definition dayOffsetOf (pinsPerDay : Z) (index : nat) : Z :=
  (Z.of_nat index / pinsPerDay)%Z.
Definition pinIndexInDayOf (pinsPerDay : Z) (index : nat) : Z :=
  Z.rem (Z.of_nat index) pinsPerDay.
Definition hourOf (pinsPerDay : Z) (index : nat) : Z :=
  (9 + (pinIndexInDayOf pinsPerDay index * 12) / pinsPerDay)%Z.
Definition minuteOf (pinsPerDay : Z) (index : nat) : Z :=
  Z.rem (pinIndexInDayOf pinsPerDay index * 17) 60.

(** The slot of the item at [index]: the day offset, the hour and the
    minute, as [setDate] and [setHours] take them ([setHours] takes the
    integer part of a minute that is a fraction). For an integer
    [pinsPerDay] other than 0 they are the integers above; division by 0
    gives no finite day offset and no hour, which leaves the date
    invalid. *)
Definition integerSlot (pinsPerDay : Z) (index : nat)
    : number * number * number :=
  if (pinsPerDay =? 0)%Z then (NaN, NaN, NaN)
  else (Num (dayOffsetOf pinsPerDay index),
        Num (hourOf pinsPerDay index),
        Num (minuteOf pinsPerDay index)).

(** The same arithmetic for a [pinsPerDay] that is a fraction. *)
Definition fractionSlot (pinsPerDay : Q) (index : nat)
    : number * number * number :=
  let index := inject_Z (Z.of_nat index) in
  let dayOffset := Qfloor (fdiv index pinsPerDay) in
  let pinIndexInDay := frem index pinsPerDay in
  let hour := (9 + Qfloor (fdiv (fmul pinIndexInDay 12) pinsPerDay))%Z in
  let minute := frem (fmul pinIndexInDay 17) 60 in
  (Num dayOffset, Num hour, Num (truncate minute)).

(** For an infinite [pinsPerDay] every quotient is 0 and the remainder
    of the index is the index. *)
Definition slotOf (pinsPerDay : anyNumber) (index : nat)
    : number * number * number :=
  match pinsPerDay with
  | Whole NaN => (NaN, NaN, NaN)
  | Whole (Num p) => integerSlot p index
  | Frac q =>
      if isInteger q then integerSlot (Qfloor q) index
      else fractionSlot q index
  | Infinity _ => (Num 0, Num 9, Num (Z.rem (Z.of_nat index * 17) 60))
  end.

(** [pad] *)
Definition pad (n : number) : string := padStart 2 "0" (String_of n).

(** The first loop: every variation of every source is pushed, with its
    coordinates. *)
Definition flattenPins (results : list CampaignResult) : list FlatPin :=
  forEach (fun flattenedPins r uIdx =>
    forEach (fun flattenedPins v vIdx =>
      (flattenedPins ++
        [ {| url := sourceUrl r; variation := v; uIdx := uIdx; vIdx := vIdx |} ])%list)
      (variations r) flattenedPins)
    results [].

(** [xs.find(p)] *)
Definition find {A} (P : A -> Prop) `{forall x, Decision (P x)} (l : list A)
    : option A :=
  snd <$> list_find P l.

Section WithHost.

Variable host : Host.

(** The body of the callback of [flattenedPins.map]: the date string of
    the item at [index]. [date] is the time value of the [Date] object
    the callback creates and then updates. *)
Definition slotDateStr (start : number) (pinsPerDay : anyNumber)
    (index : nat) : string :=
  let '(dayOffset, hour, minute) := slotOf pinsPerDay index in
  let date := start in
  let date := setDate host date (add (getDate host start) dayOffset) in
  let date := setHours host date hour minute (Num 0) (Num 0) in
  String_of (getFullYear host date) +:+ "-" +:+
  pad (add (getMonth host date) (Num 1)) +:+ "-" +:+
  pad (getDate host date) +:+ " " +:+
  pad (getHours host date) +:+ ":" +:+
  pad (getMinutes host date).

Definition scheduleCampaign (results : list CampaignResult)
    (settings : AppSettings) : list CampaignResult :=
  let rawPinsPerDay := pinsPerDay settings in
  let pinsPerDay := effectivePinsPerDay rawPinsPerDay in
  let start := parse host (startDate settings) in
  let flattenedPins := flattenPins results in
  let scheduledFlat :=
    imap (fun index item =>
            {| item := item; dateStr := slotDateStr start pinsPerDay index |})
         flattenedPins in
  imap (fun uIdx' urlResult =>
    withVariations urlResult
      (imap (fun vIdx' variation =>
         let scheduled :=
           find (fun s => uIdx (item s) = uIdx' /\ vIdx (item s) = vIdx')
                scheduledFlat in
         withScheduledDate variation
           match scheduled with
           | Some s => dateStr s
           | None => EmptyString
           end)
         (variations urlResult)))
    results.

End WithHost.

End Scheduling.

(** ** [src/public/utils/csv] *)

Module Csv.

Import Js Types.

(** A template of the form [Q${s}Q], Q being the double quote. *)
Definition quoted (s : string) : string :=
  String dquote (s +:+ String dquote EmptyString).

(** [`${x}`] for a string that may be undefined. *)
Definition interpolate (o : option string) : string :=
  match o with
  | Some s => s
  | None => "undefined"
  end.

(** [x || ''] for a string that may be undefined. *)
Definition orEmpty (o : option string) : string :=
  match o with
  | Some s => s
  | None => EmptyString
  end.

(** [!u || !u.startsWith("https://")] *)
Definition notHttps (u : option string) : bool :=
  falsy u ||
  match u with
  | Some s => negb (startsWith "https://" s)
  | None => false
  end.

Definition rowMessage (idx : nat) (what : string) : string :=
  "Row " +:+ pretty idx +:+ ": " +:+ what.

Definition mediaUrlMessage (mediaUrl : string) : string :=
  "Media URL is not a public HTTPS link. Current: " +:+
  substring0 30 mediaUrl +:+ "...".

(** The cells are stripped of their surrounding quotes and destructured
    (a missing cell is undefined), then checked in column order. The
    message of the media URL check reads [mediaUrl.substring], which
    throws a [TypeError] when that cell is missing. *)
Definition validateRow (row : list string) (idx : nat) : result bool :=
  let cells := map stripQuotes row in
  let title : option string := cells !! 0 in
  let mediaUrl : option string := cells !! 1 in
  let board : option string := cells !! 2 in
  let description : option string := cells !! 3 in
  let link : option string := cells !! 4 in
  let date : option string := cells !! 5 in
  let keywords : option string := cells !! 6 in
  when (falsy title || Nat.ltb (String.length (orEmpty title)) 1)
    throw (Error (rowMessage idx "Title empty.")) ;;
  when (notHttps mediaUrl
        || includes "data:image" (orEmpty mediaUrl)
        || includes "blob:" (orEmpty mediaUrl))
    throw (match mediaUrl with
           | Some m => Error (rowMessage idx (mediaUrlMessage m))
           | None => TypeError
           end) ;;
  when (falsy board) throw (Error (rowMessage idx "Board empty.")) ;;
  when (falsy description)
    throw (Error (rowMessage idx "Description empty.")) ;;
  when (notHttps link)
    throw (Error (rowMessage idx "Link empty or not HTTPS.")) ;;
  when (falsy date) throw (Error (rowMessage idx "Date empty.")) ;;
  when (falsy keywords) throw (Error (rowMessage idx "Keywords empty.")) ;;
  ret true.

Definition headers : list string :=
  [ "Title"; "Media URL"; "Pinterest board"; "Description"; "Link";
    "Publish date"; "Keywords" ].

Definition cloudSyncMessage (title : string) : string :=
  "Cloud Sync Missing: Variation " +:+ quoted title +:+
  " has no public HTTPS URL. Export blocked.".

Definition batchMessage (expectedTotal found : nat) : string :=
  "Batch Integrity Failure: Expected " +:+ pretty expectedTotal +:+
  " rows, found " +:+ pretty found +:+ ".".

(** The callback of [urlResult.variations.map]: the gate on
    [publicMediaUrl], then the array of the seven quoted cells; reading
    [suggestedBoards[0]] of an empty array gives undefined, whose
    [replace] cannot be called. *)
Definition projectRow (urlResult : CampaignResult) (variation : PinVariation)
    : result (list string) :=
  let mediaUrl := publicMediaUrl variation in
  when (notHttps mediaUrl)
    throw (Error (cloudSyncMessage (title variation))) ;;
  try board <- match suggestedBoards variation !! 0 with
               | Some b => ret b
               | None => Js.throw TypeError
               end ;;
  ret [ quoted (doubleQuotes (title variation));
        quoted (interpolate mediaUrl);
        quoted (doubleQuotes board);
        quoted (doubleQuotes (description variation));
        quoted (sourceUrl urlResult);
        quoted (orEmpty (scheduledDate variation));
        quoted (doubleQuotes (join ", " (keywords variation))) ].

(** [data.flatMap(urlResult => urlResult.variations.map(...))] *)
Definition projectRows (data : list CampaignResult)
    : result (list (list string)) :=
  flatMapM (fun urlResult => mapM (projectRow urlResult) (variations urlResult))
           data.

(** The four stages: projection (with the gate), row count, per-row
    validation with the position of the row counted from 1, and the text
    of the table. *)
Definition generateCSVString (data : list CampaignResult) : result string :=
  let expectedTotal := length data * 3 in
  try rows <- projectRows data ;;
  when (negb (Nat.eqb (length rows) expectedTotal))
    throw (Error (batchMessage expectedTotal (length rows))) ;;
  run forEachM (fun row idx => run validateRow row (idx + 1) ;; ret tt) 0 rows ;;
  ret (join (String newline EmptyString)
            (join "," headers :: map (join ",") rows)).

Global Arguments validateRow : simpl never.
Global Arguments projectRow : simpl never.
Global Arguments generateCSVString : simpl never.
Global Arguments rowMessage : simpl never.
Global Arguments cloudSyncMessage : simpl never.
Global Arguments batchMessage : simpl never.

End Csv.

(** ** [src/public/App.tsx]: the state of the session *)

Module App.

Import Js Types.

Record GenerationState : Type := {
  loading : bool;
  error : option string;
  results : option (list CampaignResult)
}.

(** [{ ...v, generatedImageUrl: base64, publicMediaUrl: publicUrl }] *)
Definition withSync (v : PinVariation) (base64 publicUrl : string)
    : PinVariation :=
  {| title := title v;
     description := description v;
     altText := altText v;
     suggestedBoards := suggestedBoards v;
     keywords := keywords v;
     strategy := strategy v;
     visualStrategy := visualStrategy v;
     performanceIntelligence := performanceIntelligence v;
     experimentationLayer := experimentationLayer v;
     authorityLayer := authorityLayer v;
     scheduledDate := scheduledDate v;
     generatedImageUrl := Some base64;
     publicMediaUrl := Some publicUrl |}.

(** The array [newResults] of [handleSyncComplete]. *)
Definition syncResults (urlIdx varIdx : nat) (base64 publicUrl : string)
    (prevResults : list CampaignResult) : list CampaignResult :=
  imap (fun uIdx res =>
    if decide (uIdx <> urlIdx) then res
    else
      withVariations res
        (imap (fun vIdx v =>
                 if decide (vIdx <> varIdx) then v
                 else withSync v base64 publicUrl)
              (variations res)))
    prevResults.

(** The state update of [handleSyncComplete]: the function it hands to
    [setState], from the previous state to the next. *)
Definition handleSyncComplete (urlIdx varIdx : nat) (base64 publicUrl : string)
    (prev : GenerationState) : GenerationState :=
  match results prev with
  | None => prev
  | Some prevResults =>
      {| loading := loading prev;
         error := error prev;
         results := Some (syncResults urlIdx varIdx base64 publicUrl
                                      prevResults) |}
  end.

(** [state.results ? state.results.length * 3 : 0] *)
Definition totalPins (state : GenerationState) : nat :=
  match results state with
  | Some rs => length rs * 3
  | None => 0
  end.

(** The sum, over the sources, of the number of variations whose
    [publicMediaUrl] is truthy. *)
Definition cloudReadyCount (state : GenerationState) : nat :=
  match results state with
  | None => 0
  | Some rs =>
      foldl (fun acc r =>
               acc + length (List.filter
                               (fun v => negb (falsy (publicMediaUrl v)))
                               (variations r)))
            0 rs
  end.

Definition isAllSynced (state : GenerationState) : bool :=
  Nat.ltb 0 (totalPins state)
  && Nat.eqb (cloudReadyCount state) (totalPins state).

End App.

(** ** [src/services/imageHostService.ts] *)

Module ImageHost.

Import Js.

(** [s.substring(a, b)] for [a <= b]. *)
Definition substring (a b : nat) (s : string) : string :=
  String.substring a (b - a) s.

(** [uploadToPublicHost]: what the promise settles to. The two strings
    [draw1] and [draw2] are what [Math.random().toString(36)] gives at its
    two calls; the delay before the answer is not part of the value. *)
Definition uploadToPublicHost (draw1 draw2 : string) (base64Data : string)
    : result string :=
  let assetId := substring 2 15 draw1 +:+ substring 2 15 draw2 in
  let publicUrl :=
    "https://cdn.pinflow-pro.ai/v2/production/assets/pin_" +:+ assetId
    +:+ ".png" in
  when (negb (startsWith "https://" publicUrl))
    throw (Error "Security Violation: Generated URL is not HTTPS.") ;;
  ret publicUrl.

End ImageHost.

(** * Vocabulary of the statements *)

Module Vocabulary.

Import Js JsDate Types Scheduling.

(** The position in the flattened sequence of variation [v] of source
    [u]: the variations of the sources before [u], then [v]. *)
Definition flatIndex (results : list CampaignResult) (u v : nat) : nat :=
  sum_list (take u (map (fun r => length (variations r)) results)) + v.

Definition flatPin (u : nat) (r : CampaignResult) (v : nat) (x : PinVariation)
    : FlatPin :=
  {| url := sourceUrl r; variation := x; uIdx := u; vIdx := v |}.

(** The date string given to variation [v] of source [u]. *)
Definition assignedDate (host : Host) (results : list CampaignResult)
    (settings : AppSettings) (u v : nat) : string :=
  slotDateStr host (parse host (startDate settings))
              (effectivePinsPerDay (pinsPerDay settings))
              (flatIndex results u v).

(** The re-mapping step once every lookup is resolved: the results with
    [D u v] as the date of variation [v] of source [u]. *)
Definition reassemble (D : nat -> nat -> string)
    (results : list CampaignResult) : list CampaignResult :=
  imap (fun u r =>
          withVariations r
            (imap (fun v x => withScheduledDate x (D u v)) (variations r)))
       results.

(** Two variations that agree on every property but [scheduledDate]. *)
Definition sameButScheduledDate (x x' : PinVariation) : Prop :=
  title x' = title x /\ description x' = description x /\
  altText x' = altText x /\ suggestedBoards x' = suggestedBoards x /\
  keywords x' = keywords x /\ strategy x' = strategy x /\
  visualStrategy x' = visualStrategy x /\
  performanceIntelligence x' = performanceIntelligence x /\
  experimentationLayer x' = experimentationLayer x /\
  authorityLayer x' = authorityLayer x /\
  generatedImageUrl x' = generatedImageUrl x /\
  publicMediaUrl x' = publicMediaUrl x.

(** Settings with a given raw [pinsPerDay]. *)
Definition withPinsPerDay (settings : AppSettings) (raw : anyNumber)
    : AppSettings :=
  {| pinsPerDay := raw;
     startDate := startDate settings;
     variationsPerUrl := variationsPerUrl settings |}.

(** A day number and its calendar date agree both ways, with the month
    in 1..12 and the day within the month. *)
Definition calendarAgrees (d : Z) : bool :=
  let '(y, m, dd) := civil_from_days d in
  (days_from_civil y m dd =? d)%Z && (1 <=? m)%Z && (m <=? 12)%Z
  && (1 <=? dd)%Z && (dd <=? DaysInMonth y m)%Z.

(** [calendarAgrees] on [n] consecutive days from [d]. *)
Fixpoint calendarAgreesFrom (n : nat) (d : Z) : bool :=
  match n with
  | O => true
  | S n' => calendarAgrees d && calendarAgreesFrom n' (d + 1)%Z
  end.

(** 2024-01-01T00:00:00Z as a time value. *)
Definition t2024 : Z := 1704067200000.

(** The (source, variation) pairs in the order the export visits them. *)
Definition pairs (data : list CampaignResult)
    : list (CampaignResult * PinVariation) :=
  concat (map (fun r => map (pair r) (variations r)) data).

(** [publicMediaUrl] is absent or does not start with https://. *)
Definition lacksPublicHttps (v : PinVariation) : Prop :=
  publicMediaUrl v = None \/
  exists s, publicMediaUrl v = Some s /\ startsWith "https://" s = false.

(** [{ ...variation, generatedImageUrl: g }] *)
Definition withGeneratedImageUrl (v : PinVariation) (g : option string)
    : PinVariation :=
  {| title := title v;
     description := description v;
     altText := altText v;
     suggestedBoards := suggestedBoards v;
     keywords := keywords v;
     strategy := strategy v;
     visualStrategy := visualStrategy v;
     performanceIntelligence := performanceIntelligence v;
     experimentationLayer := experimentationLayer v;
     authorityLayer := authorityLayer v;
     scheduledDate := scheduledDate v;
     generatedImageUrl := g;
     publicMediaUrl := publicMediaUrl v |}.

(** The data with the local preview of every variation replaced. *)
Definition withPreviews (g : PinVariation -> option string)
    (data : list CampaignResult) : list CampaignResult :=
  map (fun r =>
         withVariations r
           (map (fun v => withGeneratedImageUrl v (g v)) (variations r)))
      data.

(** The seven cells of the row of variation [v] of source [r], for the
    public URL [m] and the first board [b]. *)
Definition rowCells (r : CampaignResult) (v : PinVariation) (m b : string)
    : list string :=
  [ Csv.quoted (doubleQuotes (title v));
    Csv.quoted m;
    Csv.quoted (doubleQuotes b);
    Csv.quoted (doubleQuotes (description v));
    Csv.quoted (sourceUrl r);
    Csv.quoted (Csv.orEmpty (scheduledDate v));
    Csv.quoted (doubleQuotes (join ", " (keywords v))) ].

(** The seven values a row is made from, before quoting: what the cells
    of [rowCells] are once their surrounding quotes are stripped. *)
Definition rowValues (r : CampaignResult) (v : PinVariation) (m b : string)
    : list string :=
  [ doubleQuotes (title v);
    m;
    doubleQuotes b;
    doubleQuotes (description v);
    sourceUrl r;
    Csv.orEmpty (scheduledDate v);
    doubleQuotes (join ", " (keywords v)) ].

(** The seven cells as standard CSV escaping would write them: every
    value with its double quotes doubled, then wrapped in double
    quotes. *)
Definition escapedCells (r : CampaignResult) (v : PinVariation)
    (m b : string) : list string :=
  [ Csv.quoted (doubleQuotes (title v));
    Csv.quoted (doubleQuotes m);
    Csv.quoted (doubleQuotes b);
    Csv.quoted (doubleQuotes (description v));
    Csv.quoted (doubleQuotes (sourceUrl r));
    Csv.quoted (doubleQuotes (Csv.orEmpty (scheduledDate v)));
    Csv.quoted (doubleQuotes (join ", " (keywords v))) ].

(** The text of a table: the header line, then one line per row, the
    cells of a line joined by commas and the lines by line feeds. *)
Definition csvText (rows : list (list string)) : string :=
  join (String newline EmptyString)
       (join "," Csv.headers :: map (join ",") rows).

(** A source URL with a quoted search term, as a user may paste it:
    https://example.com/?q=Qraised bedsQ, Q being the double quote. *)
Definition quotedLink : string :=
  "https://example.com/?q=" +:+
  String dquote ("raised beds" +:+ String dquote EmptyString).

(** What the per-row validation can find wrong, in column order. *)
Inductive RowFault : Type :=
| TitleEmpty
| MediaUrlInvalid
| BoardEmpty
| DescriptionEmpty
| LinkInvalid
| DateEmpty
| KeywordsEmpty.

(** The text that names the fault in the error message. *)
Definition faultText (f : RowFault) (cells : list string) : string :=
  match f with
  | TitleEmpty => "Title empty."
  | MediaUrlInvalid => Csv.mediaUrlMessage (Csv.orEmpty (cells !! 1))
  | BoardEmpty => "Board empty."
  | DescriptionEmpty => "Description empty."
  | LinkInvalid => "Link empty or not HTTPS."
  | DateEmpty => "Date empty."
  | KeywordsEmpty => "Keywords empty."
  end.

(** The fault [f] is present in the stripped cells: a column is empty,
    the media URL is not HTTPS or holds a data-image or blob marker, the
    link is not HTTPS (an empty URL is not HTTPS). *)
Definition hasFault (cells : list string) (f : RowFault) : Prop :=
  match f with
  | TitleEmpty => cells !! 0 = Some EmptyString
  | MediaUrlInvalid =>
      exists m, cells !! 1 = Some m /\
        (startsWith "https://" m = false \/
         includes "data:image" m = true \/ includes "blob:" m = true)
  | BoardEmpty => cells !! 2 = Some EmptyString
  | DescriptionEmpty => cells !! 3 = Some EmptyString
  | LinkInvalid =>
      exists l, cells !! 4 = Some l /\ startsWith "https://" l = false
  | DateEmpty => cells !! 5 = Some EmptyString
  | KeywordsEmpty => cells !! 6 = Some EmptyString
  end.

Definition isEmpty (s : string) : bool :=
  match s with
  | EmptyString => true
  | String _ _ => false
  end.

(** The first fault of a row of seven stripped cells, in column order. *)
Definition firstFault (cells : list string) : option RowFault :=
  match cells with
  | [t; m; b; d; l; dt; k] =>
      if isEmpty t then Some TitleEmpty
      else if negb (startsWith "https://" m)
              || includes "data:image" m || includes "blob:" m
      then Some MediaUrlInvalid
      else if isEmpty b then Some BoardEmpty
      else if isEmpty d then Some DescriptionEmpty
      else if negb (startsWith "https://" l) then Some LinkInvalid
      else if isEmpty dt then Some DateEmpty
      else if isEmpty k then Some KeywordsEmpty
      else None
  | _ => None
  end.

(** No character of the string is a colon. *)
Fixpoint noColon (s : string) : Prop :=
  match s with
  | EmptyString => True
  | String c s' => c <> ":"%char /\ noColon s'
  end.

Definition firstChar (s : string) : option ascii :=
  match s with
  | EmptyString => None
  | String c _ => Some c
  end.

(** Sample data. *)
Definition sampleAnalysis : UrlAnalysis :=
  {| topic := "gardening"; coreContent := "raised beds";
     primaryKeyword := "raised bed"; secondaryKeywords := ["soil"];
     searchIntent := "learn"; mainBenefits := ["yield"];
     targetAudience := "beginners"; visualAngleOpportunities := "before/after" |}.

Definition samplePin (t : string) (boards : list string)
    (media : option string) : PinVariation :=
  {| title := t; description := "How to build it"; altText := "A raised bed";
     suggestedBoards := boards; keywords := ["garden"; "diy"];
     strategy := {| seoAngle := "how-to"; emotionalTrigger := "pride";
                    headlineStyle := "list"; visualStyle := "bright";
                    targetUserLevel := Beginner; intentType := Informational |};
     visualStrategy :=
       {| styleType := Lifestyle;
          compositionParams := {| cameraAngle := "top"; distance := Medium;
                                  lighting := Warm |};
          textOverlay := "Build it"; supportingText := None;
          imagePrompt := "a raised bed"; colorPalette := ["#fff"] |};
     performanceIntelligence :=
       {| viralHook := "hook"; ctrBooster := "boost";
          distributionVelocity := "fast" |};
     experimentationLayer :=
       {| hypothesis := "h"; testMetric := "ctr"; winnerAction := "scale" |};
     authorityLayer :=
       {| nicheDominance := "n"; trustSignal := "t";
          stabilityStrategy := "s" |};
     scheduledDate := Some "2024-01-01 09:00";
     generatedImageUrl := Some "data:image/png;base64,AAAA";
     publicMediaUrl := media |}.

Definition sampleSource (link : string) (pins : list PinVariation)
    : CampaignResult :=
  {| sourceUrl := link; analysis := sampleAnalysis; variations := pins |}.

Definition sampleSettings (raw : anyNumber) (start : string)
    : AppSettings :=
  {| pinsPerDay := raw; startDate := start; variationsPerUrl := Num 3 |}.

(** Hosts: one on UTC, one five hours west of it, neither parsing
    anything but the ISO date form. *)
Definition hostUTC : Host :=
  {| LocalTZA := fun _ _ => 0%Z; parseOther := fun _ => NaN |}.
Definition hostWest5 : Host :=
  {| LocalTZA := fun _ _ => (-18000000)%Z; parseOther := fun _ => NaN |}.


(** *** Vocabulary of the further properties *)

(** A calendar date: month in 1..12, day within the month. *)
Definition validDate (y m d : Z) : Prop :=
  (1 <= m <= 12)%Z /\ (1 <= d <= DaysInMonth y m)%Z.

(** The days from the first of March of the year 0 to the first of
    March of the year [a]: 365 a year and the leap days. *)
Definition daysBeforeYear (a : Z) : Z :=
  (365 * a + a / 4 - a / 100 + a / 400)%Z.

(** The text of a slot: [Y-MM-DD HH:MM]. *)
Definition formatSlot (date : Z * Z * Z) (hour minute : Z) : string :=
  let '(y, m, d) := date in
  String_of (Num y) +:+ "-" +:+ pad (Num m) +:+ "-" +:+ pad (Num d) +:+ " " +:+
  pad (Num hour) +:+ ":" +:+ pad (Num minute).

(** The largest time value of a [Date]. *)
Definition maxTime : Z := 8640000000000000.

(** The text of an invalid date. *)
Definition nanDate : string := "NaN-NaN-NaN NaN:NaN".

(** The local time [x] can be set on the host: its time value is within
    the range of time values, and read back in local time it is [x]
    again (no change of the clock skips [x]). *)
Definition canSet (host : Host) (x : Z) : Prop :=
  (Z.abs (UTC host x) <= maxTime)%Z /\ LocalTime host (UTC host x) = x.

(** The two local times the scheduler sets for the item at [index],
    from the start [t]: the clock time of the start on the day of the
    item ([setDate]), then the hour and the minute of the slot on that
    day ([setHours]). *)
Definition dayLocalTime (host : Host) (t p : Z) (index : nat) : Z :=
  MakeDate (Day (LocalTime host t) + dayOffsetOf p index)%Z
           (TimeWithinDay (LocalTime host t)).
Definition slotLocalTime (host : Host) (t p : Z) (index : nat) : Z :=
  MakeDate (Day (LocalTime host t) + dayOffsetOf p index)%Z
           (MakeTime (hourOf p index) (minuteOf p index) 0 0).

(** The slot of the item at [index] can be set on the host. *)
Definition slotSettable (host : Host) (t p : Z) (index : nat) : Prop :=
  canSet host (dayLocalTime host t p index) /\
  canSet host (slotLocalTime host t p index).

(** The offset of the host is [c] at all times. *)
Definition fixedOffset (host : Host) (c : Z) : Prop :=
  forall t isUTC, LocalTZA host t isUTC = c.

(** A host whose offset changes from [before] to [after] at the time
    value [change]; a local time that the change skips or repeats is
    taken with the offset before the change. *)
Definition hostWithChange (change before after : Z) : Host :=
  {| LocalTZA := fun t isUTC =>
       if isUTC
       then (if (t <? change)%Z then before else after)
       else (if (t <? change + Z.max before after)%Z then before else after);
     parseOther := fun _ => NaN |}.

(** Pacific/Apia at the end of 2011: ten hours behind UTC until
    2011-12-30T10:00:00Z, fourteen hours ahead from then on; the local
    day 2011-12-30 does not exist. *)
Definition hostApia : Host :=
  hostWithChange (days_from_civil 2011 12 30 * msPerDay + 10 * msPerHour)%Z
                 (-10 * msPerHour)%Z (14 * msPerHour)%Z.

(** A host on UTC whose clock is set forward by 4 h 17 min at 09:00 on
    2024-01-01. *)
Definition hostClockForward : Host :=
  hostWithChange (t2024 + 9 * msPerHour)%Z 0%Z
                 (4 * msPerHour + 17 * msPerMinute)%Z.

(** The number of indices below [N] whose day offset is [d]. *)
Definition countOnDay (p : Z) (N : nat) (d : Z) : nat :=
  length (List.filter (fun i => (dayOffsetOf p i =? d)%Z) (seq 0 N)).

(** A state that holds the results [rs]. *)
Definition stateOf (rs : list CampaignResult) : App.GenerationState :=
  {| App.loading := false; App.error := None; App.results := Some rs |}.

(** Variation [v] of source [u]. *)
Definition variationAt (rs : list CampaignResult) (u v : nat)
    : option PinVariation :=
  match rs !! u with
  | Some r => variations r !! v
  | None => None
  end.

(** Two variations that agree on every property but [generatedImageUrl]
    and [publicMediaUrl]. *)
Definition sameButSync (x x' : PinVariation) : Prop :=
  title x' = title x /\ description x' = description x /\
  altText x' = altText x /\ suggestedBoards x' = suggestedBoards x /\
  keywords x' = keywords x /\ strategy x' = strategy x /\
  visualStrategy x' = visualStrategy x /\
  performanceIntelligence x' = performanceIntelligence x /\
  experimentationLayer x' = experimentationLayer x /\
  authorityLayer x' = authorityLayer x /\
  scheduledDate x' = scheduledDate x.

(** [publicMediaUrl] is truthy. *)
Definition ready (v : PinVariation) : bool := negb (falsy (publicMediaUrl v)).

(** What the export asks of a variation and its source, in the words of
    the checks: a public HTTPS media URL without data-image or blob
    marker, and no empty column. *)
Definition exportable (r : CampaignResult) (v : PinVariation) : Prop :=
  (exists m, publicMediaUrl v = Some m /\ startsWith "https://" m = true /\
             includes "data:image" m = false /\ includes "blob:" m = false) /\
  title v <> EmptyString /\
  (exists b rest, suggestedBoards v = b :: rest /\ b <> EmptyString) /\
  description v <> EmptyString /\
  startsWith "https://" (sourceUrl r) = true /\
  (exists d, scheduledDate v = Some d /\ d <> EmptyString) /\
  join ", " (keywords v) <> EmptyString.

(** The row of a pair in the exported table. *)
Definition exportRow (q : CampaignResult * PinVariation) : list string :=
  rowCells q.1 q.2 (Csv.orEmpty (publicMediaUrl q.2))
           (Csv.orEmpty (suggestedBoards q.2 !! 0)).

(** Syncs recorded one after the other. *)
Definition syncAll (syncs : list (nat * nat * string * string))
    (rs : list CampaignResult) : list CampaignResult :=
  foldl (fun acc s => App.syncResults s.1.1.1 s.1.1.2 s.1.2 s.2 acc) rs syncs.

(** Every variation has a non-empty [scheduledDate]. *)
Definition allDated (data : list CampaignResult) : Prop :=
  Forall (fun q => exists d, scheduledDate q.2 = Some d /\ d <> EmptyString)
         (pairs data).

(** The number of double quotes of a string. *)
Fixpoint countQuotes (s : string) : nat :=
  match s with
  | EmptyString => 0
  | String c s' => (if Ascii.eqb c dquote then 1 else 0) + countQuotes s'
  end.

(** The decimal digit [k] as a character, and numbers written with two
    and with four digits. *)
Definition digitChar (k : Z) : ascii := ascii_of_nat (48 + Z.to_nat k).
Definition twoDigits (n : Z) : string :=
  String (digitChar (n / 10)) (String (digitChar (n mod 10)) EmptyString).
Definition fourDigits (n : Z) : string :=
  String (digitChar (n / 1000))
    (String (digitChar ((n / 100) mod 10)) (twoDigits (n mod 100))).

(** A date in the date-only ISO form, as the date input of the page
    gives it. *)
Definition isoDate (y m d : Z) : string :=
  fourDigits y +:+ "-" +:+ twoDigits m +:+ "-" +:+ twoDigits d.

(** [f] holds of the [n] integers from [z0] on. *)
Fixpoint holdsFrom (f : Z -> bool) (n : nat) (z0 : Z) : bool :=
  match n with
  | O => true
  | S n' => f z0 && holdsFrom f n' (z0 + 1)%Z
  end.

(** [String(y)] is [y] written with four digits; [pad(n)] is [n]
    written with two. *)
Definition yearText (y : Z) : bool :=
  String.eqb (String_of (Num y)) (fourDigits y).
Definition padText (n : Z) : bool :=
  String.eqb (pad (Num n)) (twoDigits n).

End Vocabulary.

(** * Properties of the scheduler *)

Import Js JsDate Types Scheduling Vocabulary.

(** ** Checks of the calendar arithmetic *)

Section Calendar.

Local Open Scope Z_scope.

Lemma civil_epoch : civil_from_days 0 = (1970, 1, 1).
Proof. reflexivity. Qed.

Lemma civil_2024_leap_day : civil_from_days 19782 = (2024, 2, 29).
Proof. reflexivity. Qed.

Lemma parseIsoDate_2024 : parseIsoDate "2024-01-01" = Some 1704067200000.
Proof. reflexivity. Qed.

(** Every day from 1970-01-01 to 2069-12-31. *)
Lemma calendar_1970_2069 :
  calendarAgreesFrom (Z.to_nat 36525) 0 = true.
Proof. by vm_compute. Qed.

Lemma civil_2069_last_day : civil_from_days 36524 = (2069, 12, 31).
Proof. reflexivity. Qed.

End Calendar.

(** ** The flattened sequence and its coordinates *)

Section Flatten.

Lemma forEachFrom_append {A B} (f : list B -> A -> nat -> list B)
    (h : A -> nat -> list B) start l acc :
  (forall acc x i, f acc x i = (acc ++ h x i)%list) ->
  forEachFrom f start l acc
  = (acc ++ concat (imap (fun j x => h x (start + j)) l))%list.
Proof.
  intros Hf. revert start acc.
  induction l as [|x l IH]; intros start acc; simpl.
  - by rewrite app_nil_r.
  - rewrite IH, Hf, <- app_assoc, Nat.add_0_r. do 3 f_equal.
    apply imap_ext. intros j y _. simpl. f_equal. lia.
Qed.

Lemma concat_imap_singleton {A B} (g : nat -> A -> B) (l : list A) :
  concat (imap (fun j x => [g j x]) l) = imap g l.
Proof.
  revert g. induction l as [|x l IH]; intros g; simpl; [done|].
  f_equal. apply (IH (g ∘ S)).
Qed.

Lemma flattenPins_concat results :
  flattenPins results
  = concat (imap (fun u r => imap (flatPin u r) (variations r)) results).
Proof.
  unfold flattenPins, forEach.
  rewrite (forEachFrom_append _
             (fun r u => imap (flatPin u r) (variations r))).
  - reflexivity.
  - intros acc r u.
    rewrite (forEachFrom_append _ (fun x v => [flatPin u r v x]));
      [|done].
    f_equal. apply (concat_imap_singleton (flatPin u r)).
Qed.

Lemma concat_mjoin {A} (ls : list (list A)) : concat ls = mjoin ls.
Proof. induction ls as [|l ls IH]; simpl; [done|]. by rewrite IH. Qed.

Lemma imap_no_index {A B} (g : A -> B) (l : list A) :
  imap (fun _ x => g x) l = g <$> l.
Proof. apply (imap_const g). Qed.

Lemma imap_imap {A B C} (f : nat -> B -> C) (g : nat -> A -> B) (l : list A) :
  imap f (imap g l) = imap (fun i x => f i (g i x)) l.
Proof.
  apply list_eq. intros i. rewrite !list_lookup_imap.
  by destruct (l !! i).
Qed.

Lemma lengths_flat_rows results :
  length <$> imap (fun u r => imap (flatPin u r) (variations r)) results
  = map (fun r => length (variations r)) results.
Proof.
  rewrite fmap_imap.
  rewrite (imap_ext _ (fun _ r => length (variations r))).
  - apply imap_no_index.
  - intros i r _. simpl. apply length_imap.
Qed.

(** The flattened sequence holds, at [flatIndex results u v], variation
    [v] of source [u] with these coordinates, and nothing else. *)
Lemma flattenPins_lookup results i p :
  flattenPins results !! i = Some p <->
  exists u r v x,
    results !! u = Some r /\ variations r !! v = Some x /\
    p = flatPin u r v x /\ i = flatIndex results u v.
Proof.
  rewrite flattenPins_concat, concat_mjoin, join_lookup_Some.
  unfold flatIndex. split.
  - intros (u & l & v & Hl & Hp & ->).
    apply list_lookup_imap_Some in Hl as (r & Hr & ->).
    apply list_lookup_imap_Some in Hp as (x & Hx & ->).
    exists u, r, v, x. split_and!; try done.
    by rewrite fmap_take, lengths_flat_rows.
  - intros (u & r & v & x & Hr & Hx & -> & ->).
    exists u, (imap (flatPin u r) (variations r)), v. split_and!.
    + by rewrite list_lookup_imap, Hr.
    + by rewrite list_lookup_imap, Hx.
    + by rewrite fmap_take, lengths_flat_rows.
Qed.

(** The lookup of the re-mapping step always finds the item, at its own
    position of the flattened sequence. *)
Lemma find_scheduled (D : nat -> string) results u r v x :
  results !! u = Some r -> variations r !! v = Some x ->
  find (fun s => uIdx (item s) = u /\ vIdx (item s) = v)
       (imap (fun index it => {| item := it; dateStr := D index |})
             (flattenPins results))
  = Some {| item := flatPin u r v x;
            dateStr := D (flatIndex results u v) |}.
Proof.
  intros Hr Hx. unfold find.
  set (P := fun s : ScheduledPin => uIdx (item s) = u /\ vIdx (item s) = v).
  assert (list_find P
            (imap (fun index it => {| item := it; dateStr := D index |})
                  (flattenPins results))
          = Some (flatIndex results u v,
                  {| item := flatPin u r v x;
                     dateStr := D (flatIndex results u v) |})) as ->; [|done].
  apply list_find_Some. split_and!.
  - rewrite list_lookup_imap.
    assert (flattenPins results !! flatIndex results u v
            = Some (flatPin u r v x)) as ->; [|done].
    apply flattenPins_lookup. by exists u, r, v, x.
  - done.
  - intros j y Hj Hlt [Hu Hv].
    apply list_lookup_imap_Some in Hj as (q & Hq & ->). simpl in *.
    apply flattenPins_lookup in Hq as (u' & r' & v' & x' & _ & _ & -> & ->).
    simpl in *. subst. lia.
Qed.

End Flatten.

(** ** The closed form of [scheduleCampaign] *)

Section Scheduler.

Variable host : Host.

Lemma scheduleCampaign_closed results settings :
  scheduleCampaign host results settings
  = reassemble (assignedDate host results settings) results.
Proof.
  unfold scheduleCampaign, reassemble. apply imap_ext. intros u r Hr. simpl.
  f_equal. apply imap_ext. intros v x Hx. simpl.
  by rewrite (find_scheduled _ results u r v x Hr Hx).
Qed.

Lemma withScheduledDate_same x d :
  sameButScheduledDate x (withScheduledDate x d).
Proof. by repeat split. Qed.

Lemma withScheduledDate_twice x d d' :
  withScheduledDate (withScheduledDate x d) d' = withScheduledDate x d'.
Proof. reflexivity. Qed.

Lemma Forall2_imap_r {A B} (P : A -> B -> Prop) (f : nat -> A -> B) l :
  (forall i x, l !! i = Some x -> P x (f i x)) -> Forall2 P l (imap f l).
Proof.
  intros H. apply Forall2_same_length_lookup_2.
  - by rewrite length_imap.
  - intros i x y Hx Hy. rewrite list_lookup_imap, Hx in Hy.
    injection Hy as <-. by apply H.
Qed.

Lemma reassemble_twice D D' results :
  reassemble D (reassemble D' results) = reassemble D results.
Proof.
  unfold reassemble. rewrite imap_imap. apply imap_ext. intros u r _.
  simpl. unfold withVariations. simpl. f_equal.
  rewrite imap_imap. by apply imap_ext.
Qed.

Lemma reassemble_ext D D' results :
  (forall u v, D u v = D' u v) -> reassemble D results = reassemble D' results.
Proof.
  intros H. unfold reassemble. apply imap_ext. intros u r _. simpl.
  f_equal. apply imap_ext. intros v x _. simpl. by rewrite H.
Qed.

Lemma scheduleCampaign_lengths results settings :
  map (fun r => length (variations r)) (scheduleCampaign host results settings)
  = map (fun r => length (variations r)) results.
Proof.
  rewrite scheduleCampaign_closed. unfold reassemble.
  change (map ?f ?l) with (f <$> l). rewrite fmap_imap.
  rewrite (imap_ext _ (fun _ r => length (variations r))).
  - apply imap_no_index.
  - intros i r _. simpl. apply length_imap.
Qed.

Lemma assignedDate_shape results results' settings u v :
  map (fun r => length (variations r)) results'
  = map (fun r => length (variations r)) results ->
  assignedDate host results' settings u v
  = assignedDate host results settings u v.
Proof. intros H. unfold assignedDate, flatIndex. by rewrite H. Qed.

End Scheduler.

(** C7: [scheduleCampaign] returns a list of the same shape as its input:
    as many sources, in the same order, each with its [sourceUrl] and
    [analysis] and with as many variations, in the same order, each equal
    to the input one in every property but [scheduledDate] (which is set);
    the empty list gives the empty list, and a source without variations
    is returned with an empty variation list. The function only builds new
    values: its input is an argument it cannot change. *)
Theorem C7_scheduleCampaign_preserves_shape
    (host : Host) (results : list CampaignResult) (settings : AppSettings) :
  length (scheduleCampaign host results settings) = length results /\
  Forall2 (fun r r' =>
             sourceUrl r' = sourceUrl r /\ analysis r' = analysis r /\
             length (variations r') = length (variations r) /\
             Forall2 (fun x x' =>
                        sameButScheduledDate x x' /\ is_Some (scheduledDate x'))
                     (variations r) (variations r'))
          results (scheduleCampaign host results settings) /\
  scheduleCampaign host [] settings = [] /\
  (forall link an,
     scheduleCampaign host
       [ {| sourceUrl := link; analysis := an; variations := [] |} ] settings
     = [ {| sourceUrl := link; analysis := an; variations := [] |} ]).
Proof.
  split_and!.
  - rewrite scheduleCampaign_closed. apply length_imap.
  - rewrite scheduleCampaign_closed. apply Forall2_imap_r.
    intros u r _. simpl. split_and!; try done.
    + apply length_imap.
    + apply Forall2_imap_r. intros v x _. split.
      * apply withScheduledDate_same.
      * by eexists.
  - reflexivity.
  - intros link an. reflexivity.
Qed.

(** C8: [scheduleCampaign] is idempotent: scheduling an already scheduled
    list with the same settings returns the scheduled list again; and it
    is a function of its inputs (on one host): equal inputs and settings
    give equal outputs. *)
Theorem C8_scheduleCampaign_idempotent
    (host : Host) (results : list CampaignResult) (settings : AppSettings) :
  scheduleCampaign host (scheduleCampaign host results settings) settings
  = scheduleCampaign host results settings /\
  (forall results' settings',
     results' = results -> settings' = settings ->
     scheduleCampaign host results' settings'
     = scheduleCampaign host results settings).
Proof.
  split.
  - rewrite (scheduleCampaign_closed host (scheduleCampaign host results settings)).
    rewrite (reassemble_ext _ (assignedDate host results settings)).
    + rewrite (scheduleCampaign_closed host results). apply reassemble_twice.
    + intros u v. apply assignedDate_shape, scheduleCampaign_lengths.
  - by intros ? ? -> ->.
Qed.

Lemma C8_scheduleCampaign_idempotent_witness :
  let results :=
    [ sampleSource "https://a.example" [ samplePin "one" ["b"] None;
                                         samplePin "two" ["b"] None ] ] in
  let settings := sampleSettings (Num 3) "2024-01-01" in
  scheduleCampaign hostUTC results settings
  = scheduleCampaign hostUTC results settings.
Proof.
  intros results settings.
  apply (proj2 (C8_scheduleCampaign_idempotent hostUTC results settings)
               results settings eq_refl eq_refl).
Defined.

(** ** Slot arithmetic *)

Section Slots.

Local Open Scope Z_scope.

Lemma pinIndexInDayOf_mod p i :
  0 < p -> pinIndexInDayOf p i = Z.of_nat i mod p.
Proof. intros Hp. unfold pinIndexInDayOf. apply Z.rem_mod_nonneg; lia. Qed.

Lemma pinIndexInDayOf_range p i : 0 < p -> 0 <= pinIndexInDayOf p i < p.
Proof.
  intros Hp. rewrite pinIndexInDayOf_mod by done. by apply Z.mod_pos_bound.
Qed.

Lemma index_decompose p i :
  0 < p -> Z.of_nat i = p * dayOffsetOf p i + pinIndexInDayOf p i.
Proof.
  intros Hp. rewrite pinIndexInDayOf_mod by done. unfold dayOffsetOf.
  apply Z.div_mod. lia.
Qed.

Lemma hourOf_range p i : 0 < p -> 9 <= hourOf p i < 21.
Proof.
  intros Hp. unfold hourOf.
  pose proof (pinIndexInDayOf_range p i Hp) as Hs.
  assert (0 <= pinIndexInDayOf p i * 12 / p < 12); [|lia].
  split.
  - apply Z.div_pos; lia.
  - apply Z.div_lt_upper_bound; lia.
Qed.

Lemma minuteOf_mod p i :
  0 < p -> minuteOf p i = (pinIndexInDayOf p i * 17) mod 60.
Proof.
  intros Hp. unfold minuteOf.
  pose proof (pinIndexInDayOf_range p i Hp).
  apply Z.rem_mod_nonneg; lia.
Qed.

Lemma minuteOf_range p i : 0 < p -> 0 <= minuteOf p i < 60.
Proof.
  intros Hp. rewrite minuteOf_mod by done. apply Z.mod_pos_bound. lia.
Qed.

(** 17 is invertible modulo 60 (17 * 53 = 901 = 15 * 60 + 1): a slot
    below 60 is recovered from its minute. *)
Lemma jitter_inverse a : 0 <= a < 60 -> (53 * ((a * 17) mod 60)) mod 60 = a.
Proof.
  intros Ha. rewrite Z.mul_mod_idemp_r by lia.
  replace (53 * (a * 17)) with (a + 15 * a * 60) by lia.
  rewrite Z.mod_add by lia. by apply Z.mod_small.
Qed.

Lemma jitter_injective a b :
  0 <= a < 60 -> 0 <= b < 60 ->
  (a * 17) mod 60 = (b * 17) mod 60 -> a = b.
Proof.
  intros Ha Hb H.
  rewrite <- (jitter_inverse a Ha), <- (jitter_inverse b Hb). by rewrite H.
Qed.

End Slots.

(** ** The calendar, for every day number *)

Section CalendarAll.

Local Open Scope Z_scope.

Lemma DaysInMonth_le_31 y m : DaysInMonth y m <= 31.
Proof.
  unfold DaysInMonth.
  destruct (m =? 2); [by destruct (isLeap y)|].
  by destruct ((m =? 4) || (m =? 6) || (m =? 9) || (m =? 11)).
Qed.

(** The day number in terms of the year that starts in March: the days
    before that year, the days before the month, the day. *)
Lemma days_from_civil_parts y m d :
  let a := if m <=? 2 then y - 1 else y in
  let mp := if m >? 2 then m - 3 else m + 9 in
  days_from_civil y m d
  = daysBeforeYear a + (153 * mp + 2) / 5 + d - 1 - 719468.
Proof.
  unfold days_from_civil, daysBeforeYear.
  set (a := if m <=? 2 then y - 1 else y).
  set (mp := if m >? 2 then m - 3 else m + 9).
  cbv zeta. generalize ((153 * mp + 2) / 5). intros h.
  Z.to_euclidean_division_equations. lia.
Qed.

Lemma daysBeforeYear_mono a b : a <= b -> daysBeforeYear a <= daysBeforeYear b.
Proof.
  intros H. unfold daysBeforeYear. Z.to_euclidean_division_equations. lia.
Qed.

Lemma daysBeforeYear_next a :
  daysBeforeYear (a + 1)
  = daysBeforeYear a + (if isLeap (a + 1) then 366 else 365).
Proof.
  unfold daysBeforeYear, isLeap.
  destruct (Z.eqb_spec ((a + 1) mod 4) 0), (Z.eqb_spec ((a + 1) mod 100) 0),
    (Z.eqb_spec ((a + 1) mod 400) 0); simpl;
    Z.to_euclidean_division_equations; lia.
Qed.

(** The year within the era that [civil_from_days] computes: the day
    of the era lies within that year. *)
Lemma year_of_era doe :
  0 <= doe <= 146096 ->
  let yoe := (doe - doe / 1460 + doe / 36524 - doe / 146096) / 365 in
  0 <= yoe <= 399 /\
  365 * yoe + yoe / 4 - yoe / 100 <= doe
    < 365 * (yoe + 1) + (yoe + 1) / 4 - (yoe + 1) / 100 + (yoe + 1) / 400.
Proof.
  intros H yoe. subst yoe.
  assert (doe / 146096 = 0 \/ doe = 146096) as [H3 | ->].
  { Z.to_euclidean_division_equations. lia. }
  2: { vm_compute. repeat split; congruence. }
  rewrite H3.
  assert (doe / 36524 = 0 \/ doe / 36524 = 1 \/ doe / 36524 = 2 \/
          doe / 36524 = 3) as Hc.
  { Z.to_euclidean_division_equations. lia. }
  destruct Hc as [Hc | [Hc | [Hc | Hc]]]; rewrite Hc;
    Z.to_euclidean_division_equations; lia.
Qed.

(** The date of a day number is a date of the calendar, and its day
    number is that number. *)
Lemma civil_from_days_valid z :
  let '(y, m, d) := civil_from_days z in
  days_from_civil y m d = z /\ validDate y m d.
Proof.
  unfold civil_from_days.
  set (z' := z + 719468). set (era := z' / 146097).
  set (doe := z' - era * 146097).
  assert (0 <= doe <= 146096) as Hdoe.
  { unfold doe, era. Z.to_euclidean_division_equations. lia. }
  pose proof (year_of_era doe Hdoe) as Hyoe. cbv zeta in Hyoe.
  set (yoe := (doe - doe / 1460 + doe / 36524 - doe / 146096) / 365) in *.
  destruct Hyoe as [Hy Hin].
  set (doy := doe - (365 * yoe + yoe / 4 - yoe / 100)).
  set (a := yoe + era * 400).
  assert (z' = daysBeforeYear a + doy) as Hz.
  { unfold daysBeforeYear, a, doy, doe.
    Z.to_euclidean_division_equations. lia. }
  assert (0 <= doy < (if isLeap (a + 1) then 366 else 365)) as Hdoy.
  { pose proof (daysBeforeYear_next a) as Hn.
    assert (daysBeforeYear (a + 1)
            = era * 146097 + 365 * (yoe + 1) + (yoe + 1) / 4
              - (yoe + 1) / 100 + (yoe + 1) / 400) as Hnext.
    { unfold daysBeforeYear, a. Z.to_euclidean_division_equations. lia. }
    unfold doy, doe in *. lia. }
  set (mp := (5 * doy + 2) / 153).
  assert (0 <= mp <= 11) as Hmp.
  { unfold mp. destruct (isLeap (a + 1));
      Z.to_euclidean_division_equations; lia. }
  cbv zeta.
  assert (mp = 0 \/ mp = 1 \/ mp = 2 \/ mp = 3 \/ mp = 4 \/ mp = 5 \/
          mp = 6 \/ mp = 7 \/ mp = 8 \/ mp = 9 \/ mp = 10 \/ mp = 11)
    as Hcases by lia.
  assert (z = daysBeforeYear a + doy - 719468) as Hz'
    by (unfold z' in Hz; lia).
  assert (mp = (5 * doy + 2) / 153) as Hmpd by reflexivity.
  clearbody mp. clearbody a doy. clear Hz Hin Hy Hdoe.
  rewrite Hz'. clear Hz'.
  repeat (destruct Hcases as [Hc | Hcases]; [|]); [..|rename Hcases into Hc];
    rewrite Hc in *;
    match goal with
    | |- context [Z.ltb ?c 10] =>
        let v := eval vm_compute in (Z.ltb c 10) in
        change (Z.ltb c 10) with v
    end;
    cbv iota;
    match goal with
    | |- context [Z.leb ?c 2] =>
        let v := eval vm_compute in (Z.leb c 2) in
        change (Z.leb c 2) with v
    end;
    cbv iota;
    (split;
     [ rewrite days_from_civil_parts; cbv zeta;
       repeat match goal with
              | |- context [Z.leb ?c 2] =>
                  let v := eval vm_compute in (Z.leb c 2) in
                  change (Z.leb c 2) with v
              | |- context [Z.gtb ?c 2] =>
                  let v := eval vm_compute in (Z.gtb c 2) in
                  change (Z.gtb c 2) with v
              end;
       cbv iota;
       repeat match goal with
              | |- context [(153 * ?e + 2) / 5] =>
                  let v := eval vm_compute in ((153 * e + 2) / 5) in
                  change ((153 * e + 2) / 5) with v
              end;
       try (replace (a + 1 - 1) with a by lia);
       lia
     | unfold validDate, DaysInMonth;
       repeat match goal with
              | |- context [Z.eqb ?c ?k] =>
                  let v := eval vm_compute in (Z.eqb c k) in
                  change (Z.eqb c k) with v
              end;
       cbn [orb]; cbv iota;
       repeat match goal with
              | |- context [(153 * ?e + 2) / 5] =>
                  let v := eval vm_compute in ((153 * e + 2) / 5) in
                  change ((153 * e + 2) / 5) with v
              end;
       destruct (isLeap (a + 1)); Z.to_euclidean_division_equations; lia ]).
Qed.

(** The day of the year that starts in March, for a calendar date. *)
Lemma day_of_year_range y m d :
  validDate y m d ->
  let a := if m <=? 2 then y - 1 else y in
  let mp := if m >? 2 then m - 3 else m + 9 in
  0 <= (153 * mp + 2) / 5 + d - 1
    < (if isLeap (a + 1) then 366 else 365).
Proof.
  intros [Hm Hd]. cbv zeta.
  assert (m = 1 \/ m = 2 \/ m = 3 \/ m = 4 \/ m = 5 \/ m = 6 \/ m = 7 \/
          m = 8 \/ m = 9 \/ m = 10 \/ m = 11 \/ m = 12) as Hcases by lia.
  unfold DaysInMonth in Hd.
  repeat (destruct Hcases as [-> | Hcases]; [|]); [..|subst m];
    repeat match goal with
           | |- context [Z.leb ?c 2] =>
               let v := eval vm_compute in (Z.leb c 2) in
               change (Z.leb c 2) with v
           | |- context [Z.gtb ?c 2] =>
               let v := eval vm_compute in (Z.gtb c 2) in
               change (Z.gtb c 2) with v
           end;
    cbv iota;
    match goal with
    | |- context [(153 * ?e + 2) / 5] =>
        let v := eval vm_compute in ((153 * e + 2) / 5) in
        change ((153 * e + 2) / 5) with v
    end;
    repeat match type of Hd with
           | context [Z.eqb ?c ?k] =>
               let v := eval vm_compute in (Z.eqb c k) in
               change (Z.eqb c k) with v in Hd
           end;
    cbn [orb] in Hd; cbv iota in Hd;
    try (replace (y - 1 + 1) with y by lia);
    destruct (isLeap y), (isLeap (y + 1)); lia.
Qed.

Lemma days_from_civil_inj y1 m1 d1 y2 m2 d2 :
  validDate y1 m1 d1 -> validDate y2 m2 d2 ->
  days_from_civil y1 m1 d1 = days_from_civil y2 m2 d2 ->
  (y1, m1, d1) = (y2, m2, d2).
Proof.
  intros Hv1 Hv2.
  rewrite !days_from_civil_parts.
  pose proof (day_of_year_range y1 m1 d1 Hv1) as Hr1.
  pose proof (day_of_year_range y2 m2 d2 Hv2) as Hr2.
  cbv zeta in *.
  set (a1 := if m1 <=? 2 then y1 - 1 else y1) in *.
  set (a2 := if m2 <=? 2 then y2 - 1 else y2) in *.
  intros Heq.
  assert (a1 = a2) as Ha.
  { destruct (Z.lt_trichotomy a1 a2) as [Hlt | [Hlt | Hlt]]; [|done|].
    - pose proof (daysBeforeYear_mono (a1 + 1) a2 ltac:(lia)).
      pose proof (daysBeforeYear_next a1). lia.
    - pose proof (daysBeforeYear_mono (a2 + 1) a1 ltac:(lia)).
      pose proof (daysBeforeYear_next a2). lia. }
  rewrite Ha in Heq.
  destruct Hv1 as [Hm1 Hd1], Hv2 as [Hm2 Hd2].
  assert (m1 = m2) as Hm.
  { clear Hr1 Hr2.
    pose proof (DaysInMonth_le_31 y1 m1). pose proof (DaysInMonth_le_31 y2 m2).
    assert (DaysInMonth y1 m1 <= 30 \/ m1 = 1 \/ m1 = 3 \/ m1 = 5 \/ m1 = 7
            \/ m1 = 8 \/ m1 = 10 \/ m1 = 12) as Hl1.
    { unfold DaysInMonth.
      destruct (Z.eqb_spec m1 2); [destruct (isLeap y1); lia|].
      destruct (Z.eqb_spec m1 4), (Z.eqb_spec m1 6), (Z.eqb_spec m1 9),
        (Z.eqb_spec m1 11); simpl; lia. }
    assert (DaysInMonth y2 m2 <= 30 \/ m2 = 1 \/ m2 = 3 \/ m2 = 5 \/ m2 = 7
            \/ m2 = 8 \/ m2 = 10 \/ m2 = 12) as Hl2.
    { unfold DaysInMonth.
      destruct (Z.eqb_spec m2 2); [destruct (isLeap y2); lia|].
      destruct (Z.eqb_spec m2 4), (Z.eqb_spec m2 6), (Z.eqb_spec m2 9),
        (Z.eqb_spec m2 11); simpl; lia. }
    destruct (Z.gtb_spec m1 2), (Z.gtb_spec m2 2);
      Z.to_euclidean_division_equations; lia. }
  subst m2.
  assert (d1 = d2) as -> by lia.
  assert (y1 = y2) as ->; [|done].
  unfold a1, a2 in Ha. destruct (m1 <=? 2); lia.
Qed.

(** The date of the day number of a calendar date is that date. *)
Lemma civil_of_days_from_civil y m d :
  validDate y m d -> civil_from_days (days_from_civil y m d) = (y, m, d).
Proof.
  intros Hv.
  pose proof (civil_from_days_valid (days_from_civil y m d)) as H.
  destruct (civil_from_days (days_from_civil y m d)) as [[y' m'] d'].
  destruct H as [Heq Hv']. by apply days_from_civil_inj.
Qed.

End CalendarAll.

(** ** Local time on the host *)

Section LocalTimes.

Local Open Scope Z_scope.

Lemma Day_of_parts n w : 0 <= w < msPerDay -> Day (n * msPerDay + w) = n.
Proof.
  intros Hw. unfold Day. symmetry.
  apply (Z.div_unique _ _ _ w); unfold msPerDay in *; lia.
Qed.

Lemma time_parts x : x = Day x * msPerDay + TimeWithinDay x.
Proof.
  unfold Day, TimeWithinDay.
  pose proof (Z.div_mod x msPerDay ltac:(unfold msPerDay; lia)). lia.
Qed.

Lemma TimeWithinDay_range x : 0 <= TimeWithinDay x < msPerDay.
Proof. apply Z.mod_pos_bound. unfold msPerDay. lia. Qed.

Lemma MakeTime_range h mi :
  0 <= h < 24 -> 0 <= mi < 60 -> 0 <= MakeTime h mi 0 0 < msPerDay.
Proof. unfold MakeTime, msPerDay, msPerHour, msPerMinute. lia. Qed.

Lemma Hour_of_parts n h mi :
  0 <= h < 24 -> 0 <= mi < 60 ->
  HourFromTime (n * msPerDay + MakeTime h mi 0 0) = h.
Proof.
  intros Hh Hm. unfold HourFromTime, MakeTime, msPerDay, msPerHour, msPerMinute.
  replace (n * 86400000 + (h * 3600000 + mi * 60000 + 0 * 1000 + 0))
    with (mi * 60000 + (n * 24 + h) * 3600000) by lia.
  rewrite Z.div_add by lia. rewrite (Z.div_small (mi * 60000)) by lia.
  replace (0 + (n * 24 + h)) with (h + n * 24) by lia.
  rewrite Z.mod_add by lia. apply Z.mod_small. lia.
Qed.

Lemma Min_of_parts n h mi :
  0 <= h < 24 -> 0 <= mi < 60 ->
  MinFromTime (n * msPerDay + MakeTime h mi 0 0) = mi.
Proof.
  intros Hh Hm. unfold MinFromTime, MakeTime, msPerDay, msPerHour, msPerMinute.
  replace (n * 86400000 + (h * 3600000 + mi * 60000 + 0 * 1000 + 0))
    with (0 + (mi + (n * 24 + h) * 60) * 60000) by lia.
  rewrite Z.div_add by lia. rewrite Z.div_0_l by lia.
  replace (0 + (mi + (n * 24 + h) * 60)) with (mi + (n * 24 + h) * 60) by lia.
  rewrite Z.mod_add by lia. apply Z.mod_small. lia.
Qed.

Lemma days_from_civil_day y m d d' :
  days_from_civil y m d' = days_from_civil y m d + (d' - d).
Proof. unfold days_from_civil. lia. Qed.

Lemma MakeDay_of_date y m d k :
  validDate y m d -> MakeDay y (m - 1) (d + k) = days_from_civil y m d + k.
Proof.
  intros [Hm _]. unfold MakeDay.
  rewrite Z.div_small, Z.mod_small by lia.
  replace (y + 0) with y by lia. replace (m - 1 + 1) with m by lia.
  rewrite (days_from_civil_day y m d 1). lia.
Qed.

Lemma TimeClip_in_range x : Z.abs x <= maxTime -> TimeClip x = Num x.
Proof.
  intros H. unfold TimeClip, maxTime in *.
  destruct (Z.gtb_spec (Z.abs x) 8640000000000000); [lia|done].
Qed.

Lemma dayOffsetOf_nonneg p i : 0 < p -> 0 <= dayOffsetOf p i.
Proof. intros Hp. unfold dayOffsetOf. apply Z.div_pos; lia. Qed.

(** With a constant offset every local time exists. *)
Lemma LocalTime_fixedOffset host c t :
  fixedOffset host c -> LocalTime host t = t + c.
Proof. intros Hc. unfold LocalTime. by rewrite Hc. Qed.

Lemma canSet_fixedOffset host c x :
  fixedOffset host c -> Z.abs (x - c) <= maxTime -> canSet host x.
Proof.
  intros Hc Hx. unfold canSet, UTC, LocalTime. rewrite !Hc. split; [done|lia].
Qed.

Lemma slotSettable_fixedOffset host c t p index :
  fixedOffset host c -> 1 <= p ->
  Z.abs t + (dayOffsetOf p index + 1) * msPerDay <= maxTime ->
  slotSettable host t p index.
Proof.
  intros Hc Hp Hr. assert (0 < p) as Hpos by lia.
  pose proof (dayOffsetOf_nonneg p index Hpos) as Hk.
  pose proof (hourOf_range p index Hpos) as Hh.
  pose proof (minuteOf_range p index Hpos) as Hmi.
  pose proof (MakeTime_range (hourOf p index) (minuteOf p index)
                ltac:(lia) ltac:(lia)) as Hmt.
  pose proof (time_parts (LocalTime host t)) as Hparts.
  pose proof (TimeWithinDay_range (LocalTime host t)) as Hw.
  rewrite (LocalTime_fixedOffset host c t Hc) in *.
  split; apply (canSet_fixedOffset host c _ Hc);
    unfold dayLocalTime, slotLocalTime, MakeDate;
    rewrite (LocalTime_fixedOffset host c t Hc);
    unfold msPerDay in *; lia.
Qed.

(** [setDate] then [setHours], when the two local times can be set. *)
Lemma slot_time host t k h mi :
  0 <= h < 24 -> 0 <= mi < 60 ->
  canSet host (MakeDate (Day (LocalTime host t) + k)
                        (TimeWithinDay (LocalTime host t))) ->
  canSet host (MakeDate (Day (LocalTime host t) + k) (MakeTime h mi 0 0)) ->
  setHours host
    (setDate host (Num t) (add (getDate host (Num t)) (Num k)))
    (Num h) (Num mi) (Num 0) (Num 0)
  = Num (UTC host (MakeDate (Day (LocalTime host t) + k)
                            (MakeTime h mi 0 0))).
Proof.
  intros Hh Hmi [Hr1 He1] [Hr2 He2].
  pose proof (civil_from_days_valid (Day (LocalTime host t))) as Hc.
  unfold getDate, getter, add, setDate, YearFromTime, MonthFromTime,
    DateFromTime.
  destruct (civil_from_days (Day (LocalTime host t))) as [[y0 m0] d0].
  destruct Hc as [Hdfc Hvalid]. simpl fst. simpl snd.
  rewrite (MakeDay_of_date y0 m0 d0 k Hvalid), Hdfc.
  rewrite TimeClip_in_range by done.
  unfold setHours. rewrite He1.
  assert (Day (MakeDate (Day (LocalTime host t) + k)
                        (TimeWithinDay (LocalTime host t)))
          = Day (LocalTime host t) + k) as ->.
  { unfold MakeDate. apply Day_of_parts, TimeWithinDay_range. }
  by apply TimeClip_in_range.
Qed.

(** The text the scheduler gives the item at [index], for an integer
    [pinsPerDay] and a slot that can be set on the host: the calendar
    date of the local day of the start plus the day offset, then the
    hour and the minute of the slot. *)
Lemma slotDateStr_text_eq host t p index :
  1 <= p -> slotSettable host t p index ->
  slotDateStr host (Num t) (Num p) index
  = formatSlot
      (civil_from_days (Day (LocalTime host t) + dayOffsetOf p index))
      (hourOf p index) (minuteOf p index).
Proof.
  intros Hp [H1 H2]. assert (0 < p) as Hpos by lia.
  pose proof (hourOf_range p index Hpos) as Hh.
  pose proof (minuteOf_range p index Hpos) as Hmi.
  unfold slotDateStr, slotOf, integerSlot.
  destruct (Z.eqb_spec p 0) as [|_]; [lia|].
  unfold dayLocalTime, slotLocalTime in *.
  rewrite slot_time by (try done; lia).
  set (n := Day (LocalTime host t) + dayOffsetOf p index) in *.
  set (h := hourOf p index) in *. set (mi := minuteOf p index) in *.
  assert (forall f, getter host f (Num (UTC host (MakeDate n (MakeTime h mi 0 0))))
                    = Num (f (n * msPerDay + MakeTime h mi 0 0))) as Hget.
  { intros f. unfold getter. destruct H2 as [_ ->]. done. }
  unfold getFullYear, getMonth, getDate, getHours, getMinutes.
  rewrite !Hget.
  rewrite Hour_of_parts, Min_of_parts by lia.
  unfold YearFromTime, MonthFromTime, DateFromTime.
  rewrite Day_of_parts by (apply MakeTime_range; lia).
  destruct (civil_from_days n) as [[y m] d]. simpl fst. simpl snd.
  unfold add, formatSlot. by replace (m - 1 + 1) with m by lia.
Qed.

End LocalTimes.

(** ** Numbers written with two digits *)

Section TwoDigits.

Local Open Scope Z_scope.

Lemma holdsFrom_sound f n z0 :
  holdsFrom f n z0 = true ->
  forall z, z0 <= z < z0 + Z.of_nat n -> f z = true.
Proof.
  revert z0. induction n as [|n IH]; intros z0 H z Hz; [lia|].
  simpl in H. apply andb_true_iff in H as [H0 H].
  destruct (Z.eq_dec z z0) as [->|Hne]; [done|].
  apply (IH (z0 + 1) H). lia.
Qed.

Lemma pads_text : holdsFrom padText (Z.to_nat 100) 0 = true.
Proof. vm_cast_no_check (eq_refl true). Qed.

Lemma pad_twoDigits n : 0 <= n <= 99 -> pad (Num n) = twoDigits n.
Proof.
  intros Hn. apply String.eqb_eq.
  apply (holdsFrom_sound padText (Z.to_nat 100) 0 pads_text). lia.
Qed.

Lemma digit_digitChar k : 0 <= k <= 9 -> digit (digitChar k) = Some k.
Proof.
  intros Hk.
  assert (k = 0 \/ k = 1 \/ k = 2 \/ k = 3 \/ k = 4 \/ k = 5 \/ k = 6 \/
          k = 7 \/ k = 8 \/ k = 9) as Hcases by lia.
  repeat (destruct Hcases as [-> | Hcases]; [reflexivity|]).
  by subst.
Qed.

Lemma twoDigits_inj a b :
  0 <= a <= 99 -> 0 <= b <= 99 -> twoDigits a = twoDigits b -> a = b.
Proof.
  intros Ha Hb. unfold twoDigits. intros [= H1 H2].
  apply (f_equal digit) in H1, H2.
  rewrite !digit_digitChar in H1, H2
    by (Z.to_euclidean_division_equations; lia).
  injection H1 as H1. injection H2 as H2.
  Z.to_euclidean_division_equations. lia.
Qed.

Lemma twoDigits_app n s :
  twoDigits n +:+ s
  = String (digitChar (n / 10)) (String (digitChar (n mod 10)) s).
Proof. reflexivity. Qed.

(** On one date, the text of a slot tells its hour and its minute. *)
Lemma formatSlot_time_inj date h mi h' mi' :
  0 <= h <= 99 -> 0 <= mi <= 99 -> 0 <= h' <= 99 -> 0 <= mi' <= 99 ->
  formatSlot date h mi = formatSlot date h' mi' -> (h, mi) = (h', mi').
Proof.
  intros Hh Hmi Hh' Hmi'. destruct date as [[y m] d]. unfold formatSlot.
  intros H. repeat apply (inj (String.app _)) in H.
  rewrite !pad_twoDigits in H by done.
  rewrite !twoDigits_app in H. injection H as Ha Hb Hc Hd.
  assert (h = h') as ->.
  { apply twoDigits_inj; [done..|]. unfold twoDigits. by rewrite Ha, Hb. }
  assert (mi = mi') as ->; [|done].
  apply twoDigits_inj; [done..|]. unfold twoDigits. by rewrite Hc, Hd.
Qed.

End TwoDigits.

(** ** Distinct slots within a day *)

Section SlotsOfItems.

Local Open Scope Z_scope.

(** Two variations at different coordinates have different positions in
    the flattened sequence. *)
Lemma flatIndex_inj results u v x u' v' y :
  variationAt results u v = Some x -> variationAt results u' v' = Some y ->
  flatIndex results u v = flatIndex results u' v' -> (u, v) = (u', v').
Proof.
  unfold variationAt. intros Hx Hy Heq.
  destruct (results !! u) as [r|] eqn:Hr; [|done].
  destruct (results !! u') as [r'|] eqn:Hr'; [|done].
  assert (flattenPins results !! flatIndex results u v
          = Some (flatPin u r v x)) as H1.
  { apply flattenPins_lookup. by exists u, r, v, x. }
  assert (flattenPins results !! flatIndex results u v
          = Some (flatPin u' r' v' y)) as H2.
  { apply flattenPins_lookup. by exists u', r', v', y. }
  rewrite H1 in H2. injection H2 as _ _ Hu Hv. by rewrite Hu, Hv.
Qed.

(** What [scheduleCampaign] makes of the variation at given
    coordinates. *)
Lemma variationAt_scheduleCampaign host results settings u v x :
  variationAt results u v = Some x ->
  variationAt (scheduleCampaign host results settings) u v
  = Some (withScheduledDate x (assignedDate host results settings u v)).
Proof.
  unfold variationAt. intros Hx.
  destruct (results !! u) as [r|] eqn:Hr; [|done].
  rewrite scheduleCampaign_closed. unfold reassemble.
  rewrite list_lookup_imap, Hr. simpl. by rewrite list_lookup_imap, Hx.
Qed.

End SlotsOfItems.


(** The precondition on the host is needed as well: on a host whose
    clock is set forward from 09:00 to 13:17 on the start date, the
    local time 09:00 does not exist, and the first two of three items
    of the day are both dated 13:17. *)
Lemma clock_set_forward_collision :
  let results :=
    [ sampleSource "https://a.example" [ samplePin "one" ["b"] None;
                                         samplePin "two" ["b"] None ] ] in
  map (fun r => map scheduledDate (variations r))
      (scheduleCampaign hostClockForward results
         (sampleSettings (Num 3) "2024-01-01"))
  = [ [ Some "2024-01-01 13:17"; Some "2024-01-01 13:17" ] ].
Proof. intros results. by vm_compute. Qed.



(** ** The effective [pinsPerDay] *)

Lemma effectivePinsPerDay_twice raw :
  effectivePinsPerDay (effectivePinsPerDay raw) = effectivePinsPerDay raw.
Proof.
  unfold effectivePinsPerDay, orThree, maxOne.
  destruct raw as [[|z]|q|[|]]; try reflexivity.
  - destruct (Z.eqb_spec z 0) as [->|Hz]; [reflexivity|].
    destruct (Z.eqb_spec (Z.max 1 z) 0); [lia|].
    by rewrite Z.max_assoc, Z.max_id.
  - destruct (Qeq_bool q 0) eqn:Hq; [reflexivity|].
    destruct (Qle_bool 1 q) eqn:Hle; [|reflexivity].
    by rewrite Hq, Hle.
Qed.

Lemma scheduleCampaign_effective host results settings raw raw' :
  effectivePinsPerDay raw = effectivePinsPerDay raw' ->
  scheduleCampaign host results (withPinsPerDay settings raw)
  = scheduleCampaign host results (withPinsPerDay settings raw').
Proof. intros H. unfold scheduleCampaign. simpl. by rewrite H. Qed.

(** C6 as stated fails: a negative raw value is truthy, so it is not
    replaced by 3 but raised to 1 by [Math.max]. With [pinsPerDay = -5]
    two items go to two days; with 3 they share the first day. *)
Lemma C6_counterexample :
  let results :=
    [ sampleSource "https://a.example" [ samplePin "one" ["b"] None;
                                         samplePin "two" ["b"] None ] ] in
  effectivePinsPerDay (Num (-5)) = Num 1 /\
  map (fun r => map scheduledDate (variations r))
      (scheduleCampaign hostUTC results (sampleSettings (Num (-5)) "2024-01-01"))
  = [ [ Some "2024-01-01 09:00"; Some "2024-01-02 09:00" ] ] /\
  map (fun r => map scheduledDate (variations r))
      (scheduleCampaign hostUTC results (sampleSettings (Num 3) "2024-01-01"))
  = [ [ Some "2024-01-01 09:00"; Some "2024-01-01 13:17" ] ] /\
  scheduleCampaign hostUTC results (sampleSettings (Num (-5)) "2024-01-01")
  <> scheduleCampaign hostUTC results (sampleSettings (Num 3) "2024-01-01").
Proof.
  intros results. split_and!; [reflexivity | by vm_compute.. |].
  intros H.
  apply (f_equal (map (fun r => map scheduledDate (variations r)))) in H.
  vm_compute in H. discriminate H.
Qed.

(** C6 (amended): a raw [pinsPerDay] that is NaN or 0 is replaced by 3;
    every other raw value is used itself, clamped to a minimum of 1: a
    negative value, a fraction below 1 and the negative infinity are
    raised to 1, a value of at least 1 is used as it is. In each case
    [scheduleCampaign] behaves as with the effective value. *)
Theorem C6_effective_pinsPerDay
    (host : Host) (results : list CampaignResult) (settings : AppSettings)
    (raw : anyNumber) :
  let behavesAsWith effective :=
    effectivePinsPerDay raw = effective /\
    scheduleCampaign host results (withPinsPerDay settings raw)
    = scheduleCampaign host results (withPinsPerDay settings effective) in
  (raw = NaN \/ raw = Num 0 \/ (exists q, raw = Frac q /\ (q == 0)%Q) ->
   behavesAsWith (Whole (Num 3))) /\
  (forall z, raw = Num z -> z <> 0%Z -> behavesAsWith (Whole (Num (Z.max 1 z)))) /\
  (forall q, raw = Frac q -> ~ (q == 0)%Q ->
     ((q < 1)%Q -> behavesAsWith (Whole (Num 1))) /\
     ((1 <= q)%Q -> behavesAsWith (Frac q))) /\
  (raw = Infinity true -> behavesAsWith (Whole (Num 1))) /\
  (raw = Infinity false -> behavesAsWith (Infinity false)).
Proof.
  intros behavesAsWith.
  assert (forall e, effectivePinsPerDay raw = e -> behavesAsWith e) as Hb.
  { intros e He. split; [done|]. apply scheduleCampaign_effective.
    by rewrite <- He, effectivePinsPerDay_twice. }
  split_and!.
  - intros [-> | [-> | (q & -> & Hq)]]; apply Hb; try reflexivity.
    unfold effectivePinsPerDay, orThree.
    apply Qeq_bool_iff in Hq. by rewrite Hq.
  - intros z -> Hz. apply Hb. unfold effectivePinsPerDay, orThree.
    by destruct (Z.eqb_spec z 0).
  - intros q -> Hq.
    assert (Qeq_bool q 0 = false) as Hq'.
    { destruct (Qeq_bool q 0) eqn:E; [|done].
      by apply Qeq_bool_iff in E. }
    split; intros Hcmp; apply Hb; unfold effectivePinsPerDay, orThree;
      rewrite Hq'; unfold maxOne.
    + destruct (Qle_bool 1 q) eqn:E; [|done].
      apply Qle_bool_iff in E. by apply Qlt_not_le in Hcmp.
    + apply Qle_bool_iff in Hcmp. by rewrite Hcmp.
  - intros ->. by apply Hb.
  - intros ->. by apply Hb.
Qed.

Lemma C6_effective_pinsPerDay_witness :
  let results :=
    [ sampleSource "https://a.example" [ samplePin "one" ["b"] None ] ] in
  let settings := sampleSettings (Num 7) "2024-01-01" in
  (effectivePinsPerDay (Num 0) = Num 3 /\
   scheduleCampaign hostUTC results (withPinsPerDay settings (Num 0))
   = scheduleCampaign hostUTC results (withPinsPerDay settings (Num 3))) /\
  (effectivePinsPerDay (Num (-5)) = Num 1 /\
   scheduleCampaign hostUTC results (withPinsPerDay settings (Num (-5)))
   = scheduleCampaign hostUTC results (withPinsPerDay settings (Num 1))) /\
  (effectivePinsPerDay (Frac (1 # 2)) = Num 1 /\
   scheduleCampaign hostUTC results (withPinsPerDay settings (Frac (1 # 2)))
   = scheduleCampaign hostUTC results (withPinsPerDay settings (Num 1))) /\
  effectivePinsPerDay (Num 7) = Num 7.
Proof.
  intros results settings.
  refine (conj _ (conj _ (conj _ _))).
  - apply (proj1 (C6_effective_pinsPerDay hostUTC results settings (Num 0))).
    right. by left.
  - apply (proj1 (proj2 (C6_effective_pinsPerDay hostUTC results settings
                           (Num (-5)))) (-5)%Z); [reflexivity | lia].
  - apply (proj1 (proj1 (proj2 (proj2
             (C6_effective_pinsPerDay hostUTC results settings
                (Frac (1 # 2))))) (1 # 2)%Q eq_refl
             ltac:(intros H; discriminate H))).
    reflexivity.
  - apply (proj1 (proj2 (C6_effective_pinsPerDay hostUTC results settings
                           (Num 7))) 7%Z); [reflexivity | lia].
Defined.

(** A [pinsPerDay] that is a fraction: with 2.5 the quotients and
    the remainders are fractions, and [setHours] takes the integer part
    of the minute (8.5 for the fourth item). *)
Lemma schedule_two_and_a_half :
  let results :=
    [ sampleSource "https://a.example" [ samplePin "one" ["b"] None;
                                         samplePin "two" ["b"] None;
                                         samplePin "three" ["b"] None;
                                         samplePin "four" ["b"] None ] ] in
  map (fun r => map scheduledDate (variations r))
      (scheduleCampaign hostUTC results
         (sampleSettings (Frac (5 # 2)) "2024-01-01"))
  = [ [ Some "2024-01-01 09:00"; Some "2024-01-01 13:17";
        Some "2024-01-01 18:34"; Some "2024-01-02 11:08" ] ].
Proof. intros results. by vm_compute. Qed.

(** ** The start date and the time zone of the host *)

Section StartDate.

Local Open Scope Z_scope.

Lemma parse_2024 host : parse host "2024-01-01" = Num t2024.
Proof. reflexivity. Qed.

(** On a host at a fixed offset at or east of UTC (and less than a day
    ahead), an item of day offset 0 is dated on the start date itself. *)
Lemma slotDateStr_east host c k h m :
  fixedOffset host c -> 0 <= c < msPerDay ->
  dayOffsetOf 3 k = 0 -> hourOf 3 k = h -> minuteOf 3 k = m ->
  slotDateStr host (Num t2024) (Num 3) k
  = "2024-01-01 " +:+ pad (Num h) +:+ ":" +:+ pad (Num m).
Proof.
  intros Hc Hr Hd Hh Hm.
  rewrite slotDateStr_text_eq; [|lia|].
  - rewrite Hd, Hh, Hm, Z.add_0_r.
    assert (Day (LocalTime host t2024) = 19723) as ->.
    { rewrite (LocalTime_fixedOffset host c) by done.
      unfold Day, t2024, msPerDay in *.
      symmetry. apply (Z.div_unique _ _ _ c); lia. }
    reflexivity.
  - apply (slotSettable_fixedOffset host c); [done|lia|].
    rewrite Hd. by vm_compute.
Qed.

(** At and east of UTC the three variations of a single source, three
    per day from 2024-01-01, are dated as the jitter formula says. *)
Lemma schedule_three_east host c link an v1 v2 v3 vpu :
  fixedOffset host c -> 0 <= c < msPerDay ->
  scheduleCampaign host
    [ {| sourceUrl := link; analysis := an; variations := [v1; v2; v3] |} ]
    {| pinsPerDay := Num 3; startDate := "2024-01-01";
       variationsPerUrl := vpu |}
  = [ {| sourceUrl := link; analysis := an;
         variations := [ withScheduledDate v1 "2024-01-01 09:00";
                         withScheduledDate v2 "2024-01-01 13:17";
                         withScheduledDate v3 "2024-01-01 17:34" ] |} ].
Proof.
  intros Hc Htz. rewrite scheduleCampaign_closed.
  unfold reassemble, assignedDate. simpl startDate. simpl pinsPerDay.
  rewrite parse_2024.
  change (effectivePinsPerDay (Num 3)) with (Whole (Num 3)).
  simpl. unfold withVariations, flatIndex. simpl.
  rewrite (slotDateStr_east host c 0%nat 9 0),
          (slotDateStr_east host c 1%nat 13 17),
          (slotDateStr_east host c 2%nat 17 34); try done.
Qed.

End StartDate.

(** C1, on a host west of UTC: [new Date] reads the date-only string as
    midnight UTC, which is the evening before in local time, and the
    local-time accessors then date every item one day early. Five hours
    west of UTC the three variations of the scenario are dated 2023-12-31,
    not 2024-01-01 (hours and minutes are as the formula says). *)
Theorem C1_start_date_west_of_utc
    (link : string) (an : UrlAnalysis) (v1 v2 v3 : PinVariation)
    (vpu : number) :
  scheduleCampaign hostWest5
    [ {| sourceUrl := link; analysis := an; variations := [v1; v2; v3] |} ]
    {| pinsPerDay := Num 3; startDate := "2024-01-01";
       variationsPerUrl := vpu |}
  = [ {| sourceUrl := link; analysis := an;
         variations := [ withScheduledDate v1 "2023-12-31 09:00";
                         withScheduledDate v2 "2023-12-31 13:17";
                         withScheduledDate v3 "2023-12-31 17:34" ] |} ] /\
  map (fun r => map scheduledDate (variations r))
      (scheduleCampaign hostWest5
         [ {| sourceUrl := link; analysis := an;
              variations := [v1; v2; v3] |} ]
         {| pinsPerDay := Num 3; startDate := "2024-01-01";
            variationsPerUrl := vpu |})
  <> [ [ Some "2024-01-01 09:00"; Some "2024-01-01 13:17";
         Some "2024-01-01 17:34" ] ].
Proof.
  split; [by vm_compute|].
  intros H. vm_compute in H. discriminate H.
Qed.

(** * Properties of the export *)

Import Csv.

(** ** Traversals that may throw *)

Section Traversals.

Context {A B : Type}.

Lemma mapM_app (f : A -> result B) l1 l2 :
  mapM f (l1 ++ l2)
  = bind (mapM f l1) (fun ys1 =>
      bind (mapM f l2) (fun ys2 => ret (ys1 ++ ys2)%list)).
Proof.
  induction l1 as [|x l1 IH]; simpl.
  - by destruct (mapM f l2).
  - destruct (f x) as [e|y]; simpl; [done|].
    rewrite IH. destruct (mapM f l1) as [e|ys1]; simpl; [done|].
    by destruct (mapM f l2).
Qed.

Lemma mapM_inr (f : A -> result B) l ys :
  mapM f l = inr ys <-> Forall2 (fun x y => f x = inr y) l ys.
Proof.
  revert ys. induction l as [|x l IH]; intros ys; simpl.
  - split.
    + intros [= <-]. constructor.
    + by intros ->%Forall2_nil_inv_l.
  - destruct (f x) as [e|y] eqn:Hx; simpl.
    + split; [done|].
      intros (y & ys' & Hy & _ & _)%Forall2_cons_inv_l. (unfold ret, Js.throw in *; congruence).
    + destruct (mapM f l) as [e|ys'] eqn:Hl; simpl.
      * split; [done|].
        intros (y' & ys' & _ & Hys & _)%Forall2_cons_inv_l.
        apply IH in Hys. (unfold ret, Js.throw in *; congruence).
      * split.
        -- intros [= <-]. constructor; [done|]. by apply IH.
        -- intros (y' & ys'' & Hy & Hys & ->)%Forall2_cons_inv_l.
           apply IH in Hys. (unfold ret, Js.throw in *; congruence).
Qed.

(** The exception of a traversal is that of the first element that
    throws. *)
Lemma mapM_inl (f : A -> result B) l e :
  mapM f l = inl e <->
  exists i x, l !! i = Some x /\ f x = inl e /\
    forall j y, j < i -> l !! j = Some y -> exists z, f y = inr z.
Proof.
  induction l as [|x l IH]; simpl.
  - split; [done|]. by intros (i & y & ? & _).
  - destruct (f x) as [e'|z] eqn:Hx; simpl.
    + split.
      * intros [= ->]. exists 0, x. split_and!; [done..|]. intros; lia.
      * intros (i & y & Hi & Hy & Hbefore). destruct i as [|i].
        -- simpl in Hi. (unfold ret, Js.throw in *; congruence).
        -- destruct (Hbefore 0 x) as [z Hz]; [lia|done|]. (unfold ret, Js.throw in *; congruence).
    + destruct (mapM f l) as [e'|ys] eqn:Hl; simpl.
      * split.
        -- intros [= ->]. destruct (proj1 IH eq_refl) as (i & y & ? & ? & Hb).
           exists (S i), y. split_and!; [done..|].
           intros [|j] y' Hj Hy'; simpl in *; [by exists z; unfold ret in *; congruence|].
           apply (Hb j); [lia|done].
        -- intros (i & y & Hi & Hy & Hb). destruct i as [|i].
           { simpl in Hi. (unfold ret, Js.throw in *; congruence). }
           f_equal. assert (inl e' = inl e :> result (list B)); [|congruence].
           apply IH. exists i, y. split_and!; [done..|].
           intros j y' Hj Hy'. apply (Hb (S j)); [lia|done].
      * split; [done|].
        intros (i & y & Hi & Hy & Hb). destruct i as [|i].
        { simpl in Hi. (unfold ret, Js.throw in *; congruence). }
        assert (inr ys = inl e :> result (list B)); [|done].
        apply IH. exists i, y. split_and!; [done..|].
        intros j y' Hj Hy'. apply (Hb (S j)); [lia|done].
Qed.

Lemma mapM_total (f : A -> result B) l :
  (exists ys, mapM f l = inr ys /\ Forall2 (fun x y => f x = inr y) l ys) \/
  (exists e, mapM f l = inl e /\ Exists (fun x => f x = inl e) l).
Proof.
  destruct (mapM f l) as [e|ys] eqn:H.
  - right. exists e. split; [done|].
    apply mapM_inl in H as (i & x & Hi & Hx & _).
    apply Exists_exists. exists x. split; [|done].
    apply list_elem_of_In. by eapply list_elem_of_lookup_2.
  - left. exists ys. split; [done|]. by apply mapM_inr.
Qed.

Lemma mapM_fmap {C} (f : A -> result B) (g : C -> A) l :
  mapM f (g <$> l) = mapM (fun x => f (g x)) l.
Proof.
  induction l as [|x l IH]; [done|].
  change (mapM f (g <$> x :: l))
    with (bind (f (g x)) (fun y =>
            bind (mapM f (g <$> l)) (fun ys => ret (y :: ys)))).
  by rewrite IH.
Qed.

End Traversals.

Lemma forEachM_inr {A} (f : A -> nat -> result unit) start l :
  forEachM f start l = inr tt <->
  forall i x, l !! i = Some x -> f x (start + i) = inr tt.
Proof.
  revert start. induction l as [|x l IH]; intros start; simpl.
  - split; [by intros _ i x | done].
  - destruct (f x start) as [e|[]] eqn:Hx; simpl.
    + split; [done|]. intros H. specialize (H 0 x eq_refl).
      rewrite Nat.add_0_r in H. (unfold ret, Js.throw in *; congruence).
    + rewrite IH. split.
      * intros H [|i] y Hy; simpl in *.
        -- rewrite Nat.add_0_r. (unfold ret, Js.throw in *; congruence).
        -- replace (start + S i) with (S start + i) by lia. by apply H.
      * intros H i y Hy. replace (S start + i) with (start + S i) by lia.
        by apply H.
Qed.

Lemma forEachM_inl {A} (f : A -> nat -> result unit) start l e :
  forEachM f start l = inl e <->
  exists i x, l !! i = Some x /\ f x (start + i) = inl e /\
    forall j y, j < i -> l !! j = Some y -> f y (start + j) = inr tt.
Proof.
  revert start. induction l as [|x l IH]; intros start; simpl.
  - split; [done|]. by intros (i & y & ? & _).
  - destruct (f x start) as [e'|[]] eqn:Hx; simpl.
    + split.
      * intros [= ->]. exists 0, x. rewrite Nat.add_0_r.
        split_and!; [done..|]. intros; lia.
      * intros (i & y & Hi & Hy & Hb). destruct i as [|i].
        -- simpl in Hi. rewrite Nat.add_0_r in Hy. (unfold ret, Js.throw in *; congruence).
        -- specialize (Hb 0 x ltac:(lia) eq_refl).
           rewrite Nat.add_0_r in Hb. (unfold ret, Js.throw in *; congruence).
    + rewrite IH. split.
      * intros (i & y & Hi & Hy & Hb). exists (S i), y.
        replace (start + S i) with (S start + i) by lia.
        split_and!; [done..|].
        intros [|j] y' Hj Hy'; simpl in *.
        -- rewrite Nat.add_0_r. (unfold ret, Js.throw in *; congruence).
        -- replace (start + S j) with (S start + j) by lia.
           apply Hb; [lia|done].
      * intros (i & y & Hi & Hy & Hb). destruct i as [|i].
        { simpl in Hi. rewrite Nat.add_0_r in Hy. (unfold ret, Js.throw in *; congruence). }
        exists i, y. replace (S start + i) with (start + S i) by lia.
        split_and!; [done..|].
        intros j y' Hj Hy'. replace (S start + j) with (start + S j) by lia.
        apply Hb; [lia|done].
Qed.

(** ** The row projection *)

Section Projection.

Lemma projectRows_pairs data :
  projectRows data = mapM (fun p => projectRow p.1 p.2) (pairs data).
Proof.
  unfold projectRows, flatMapM, pairs.
  induction data as [|r data IH]; simpl; [done|].
  rewrite mapM_app.
  change (map (pair r) (variations r)) with (pair r <$> variations r).
  rewrite mapM_fmap. simpl.
  destruct (mapM (projectRow r) (variations r)) as [e|ys]; simpl; [done|].
  rewrite <- IH.
  by destruct (mapM (fun urlResult =>
                 mapM (projectRow urlResult) (variations urlResult)) data).
Qed.

Lemma length_pairs data :
  length (pairs data)
  = sum_list (map (fun r => length (variations r)) data).
Proof.
  unfold pairs. induction data as [|r data IH]; simpl; [done|].
  by rewrite length_app, length_map, IH.
Qed.

Lemma length_pairs_three data :
  Forall (fun r => length (variations r) = 3) data ->
  length (pairs data) = length data * 3.
Proof.
  rewrite length_pairs. induction 1 as [|r data Hr _ IH]; simpl; [done|].
  rewrite Hr, IH. lia.
Qed.

Lemma notHttps_lacks v :
  notHttps (publicMediaUrl v) = true <-> lacksPublicHttps v.
Proof.
  unfold notHttps, lacksPublicHttps.
  destruct (publicMediaUrl v) as [[|c s]|]; simpl.
  - split; [|done]. intros _. right. by eexists.
  - rewrite negb_true_iff. split.
    + intros H. right. by eexists.
    + intros [|(s' & [= <-] & H)]; done.
  - split; [|done]. intros _. by left.
Qed.

Lemma notHttps_has v :
  notHttps (publicMediaUrl v) = false <-> ~ lacksPublicHttps v.
Proof. rewrite <- notHttps_lacks. by destruct (notHttps _). Qed.

Lemma projectRow_blocked r v :
  lacksPublicHttps v ->
  projectRow r v = inl (Error (cloudSyncMessage (title v))).
Proof. intros H%notHttps_lacks. unfold projectRow. by rewrite H. Qed.

Lemma projectRow_no_board r v :
  ~ lacksPublicHttps v -> suggestedBoards v = [] ->
  projectRow r v = inl TypeError.
Proof.
  intros H%notHttps_has Hb. unfold projectRow. by rewrite H, Hb.
Qed.

Lemma projectRow_row r v :
  ~ lacksPublicHttps v -> suggestedBoards v <> [] ->
  exists m b rest,
    publicMediaUrl v = Some m /\ startsWith "https://" m = true /\
    suggestedBoards v = b :: rest /\
    projectRow r v = inr (rowCells r v m b).
Proof.
  intros H Hb. pose proof H as H'%notHttps_has.
  destruct (suggestedBoards v) as [|b rest] eqn:Hv; [done|].
  destruct (publicMediaUrl v) as [m|] eqn:Hm.
  - exists m, b, rest. split_and!; try done.
    + destruct (startsWith "https://" m) eqn:Hs; [done|].
      destruct H. right. by exists m.
    + unfold projectRow. by rewrite Hm in *; rewrite H', Hv.
  - destruct H. by left.
Qed.

(** What [projectRow] throws. *)
Lemma projectRow_inl r v e :
  projectRow r v = inl e ->
  (lacksPublicHttps v /\ e = Error (cloudSyncMessage (title v))) \/
  (~ lacksPublicHttps v /\ suggestedBoards v = [] /\ e = TypeError).
Proof.
  intros He. destruct (notHttps (publicMediaUrl v)) eqn:Hn.
  - apply notHttps_lacks in Hn. rewrite (projectRow_blocked r v Hn) in He.
    left. split; [done|]. congruence.
  - apply notHttps_has in Hn. right. split; [done|].
    destruct (suggestedBoards v) as [|b rest] eqn:Hb.
    + rewrite (projectRow_no_board r v Hn Hb) in He. split; congruence.
    + destruct (projectRow_row r v Hn) as (m & b' & rest' & _ & _ & _ & Hr);
        [by rewrite Hb|]. congruence.
Qed.

Lemma generateCSVString_unfold data :
  generateCSVString data
  = match projectRows data with
    | inl e => inl e
    | inr rows =>
        if negb (Nat.eqb (length rows) (length data * 3))
        then inl (Error (batchMessage (length data * 3) (length rows)))
        else
          match forEachM (fun row idx =>
                            run validateRow row (idx + 1) ;; ret tt) 0 rows
          with
          | inl e => inl e
          | inr _ =>
              inr (join (String newline EmptyString)
                        (join "," headers :: map (join ",") rows))
          end
    end.
Proof. reflexivity. Qed.

Lemma projectRows_length data rows :
  projectRows data = inr rows -> length rows = length (pairs data).
Proof.
  rewrite projectRows_pairs. intros H%mapM_inr.
  symmetry. by eapply Forall2_length.
Qed.

(** The local preview is not read. *)
Lemma projectRows_withPreviews g data :
  projectRows (withPreviews g data) = projectRows data.
Proof.
  unfold projectRows, flatMapM, withPreviews. f_equal.
  induction data as [|r data IH]; simpl; [done|].
  rewrite IH. f_equal.
  change (map ?f ?l) with (f <$> l). by rewrite mapM_fmap.
Qed.

End Projection.

(** ** Strings of the messages *)

Section Messages.

Lemma append_cons c s1 s2 : String c s1 +:+ s2 = String c (s1 +:+ s2).
Proof. reflexivity. Qed.

Lemma append_assoc a b c : (a +:+ b) +:+ c = a +:+ (b +:+ c).
Proof.
  induction a as [|x a IH]; [done|]. by rewrite !append_cons, IH.
Qed.

Lemma prefix_append p s : String.prefix p (p +:+ s) = true.
Proof.
  induction p as [|c p IH]; [by destruct s|].
  rewrite append_cons. simpl. by destruct (ascii_dec c c).
Qed.

Lemma includes_unfold p s :
  includes p s
  = String.prefix p s ||
    match s with
    | EmptyString => false
    | String _ s' => includes p s'
    end.
Proof. by destruct s. Qed.

Lemma includes_here p s : includes p (p +:+ s) = true.
Proof. by rewrite includes_unfold, prefix_append. Qed.

Lemma includes_later p a s : includes p s = true -> includes p (a +:+ s) = true.
Proof.
  intros H. induction a as [|c a IH]; [done|].
  rewrite append_cons, includes_unfold, IH. apply orb_true_r.
Qed.

(** The message of the gate quotes the title it is given. *)
Lemma cloudSyncMessage_names title :
  includes title (cloudSyncMessage title) = true.
Proof.
  unfold cloudSyncMessage, quoted.
  apply includes_later. rewrite append_cons, includes_unfold.
  rewrite append_assoc, includes_here. apply orb_true_r.
Qed.

Lemma firstChar_cloudSync t : firstChar (cloudSyncMessage t) = Some "C"%char.
Proof. reflexivity. Qed.
Lemma firstChar_batch a b : firstChar (batchMessage a b) = Some "B"%char.
Proof. reflexivity. Qed.
Lemma firstChar_row k what : firstChar (rowMessage k what) = Some "R"%char.
Proof. reflexivity. Qed.

End Messages.

(** ** The gate on the public URL *)

Section Gate.

Lemma generateCSVString_throws_with_rows data e :
  projectRows data = inl e -> generateCSVString data = inl e.
Proof. intros H. by rewrite generateCSVString_unfold, H. Qed.

(** A variation without a public HTTPS URL blocks the export, whatever
    comes before and after it. *)
Lemma blocked_no_output data i r v :
  pairs data !! i = Some (r, v) -> lacksPublicHttps v ->
  exists e, generateCSVString data = inl e.
Proof.
  intros Hi Hv.
  destruct (projectRows data) as [e|rows] eqn:Hrows.
  - exists e. by apply generateCSVString_throws_with_rows.
  - rewrite projectRows_pairs in Hrows. apply mapM_inr in Hrows.
    destruct (Forall2_lookup_l _ _ _ _ _ Hrows Hi) as (row & _ & Hrow).
    simpl in Hrow. by rewrite (projectRow_blocked r v Hv) in Hrow.
Qed.

(** The first variation that throws decides what the export throws. *)
Lemma first_blocked data i r v :
  pairs data !! i = Some (r, v) -> lacksPublicHttps v ->
  (forall j r' v', j < i -> pairs data !! j = Some (r', v') ->
     ~ lacksPublicHttps v' /\ suggestedBoards v' <> []) ->
  generateCSVString data = inl (Error (cloudSyncMessage (title v))).
Proof.
  intros Hi Hv Hbefore. apply generateCSVString_throws_with_rows.
  rewrite projectRows_pairs. apply mapM_inl.
  exists i, (r, v). split_and!; [done|by apply projectRow_blocked|].
  intros j [r' v'] Hj Hj'. destruct (Hbefore j r' v' Hj Hj') as [Hok Hb].
  destruct (projectRow_row r' v' Hok Hb) as (m & b & rest & _ & _ & _ & Hr).
  by eexists.
Qed.

Lemma generateCSVString_withPreviews g data :
  generateCSVString (withPreviews g data) = generateCSVString data.
Proof.
  rewrite !generateCSVString_unfold, projectRows_withPreviews.
  unfold withPreviews. by rewrite length_map.
Qed.

End Gate.

(** C2 as stated fails. First data set: the first variation has a public
    HTTPS URL but no suggested board, the second has a data URI as
    [publicMediaUrl]; the export throws the [TypeError] of the missing
    board, not an error that names the second title. Second data set: two
    variations lack a public URL; the error names the first one only. *)
Lemma C2_counterexample :
  let crash :=
    [ sampleSource "https://a.example"
        [ samplePin "Alpha" [] (Some "https://cdn.example/a.png");
          samplePin "Beta" ["b"] (Some "data:image/png;base64,AAAA") ] ] in
  let two :=
    [ sampleSource "https://a.example"
        [ samplePin "Alpha" ["b"] None;
          samplePin "Beta" ["b"] (Some "data:image/png;base64,AAAA") ] ] in
  startsWith "https://" "data:image/png;base64,AAAA" = false /\
  generateCSVString crash = inl TypeError /\
  generateCSVString crash <> inl (Error (cloudSyncMessage "Beta")) /\
  generateCSVString two = inl (Error (cloudSyncMessage "Alpha")) /\
  generateCSVString two <> inl (Error (cloudSyncMessage "Beta")) /\
  includes "Beta" (cloudSyncMessage "Alpha") = false.
Proof.
  intros crash two.
  assert (generateCSVString crash = inl TypeError) as Hc by (by vm_compute).
  assert (generateCSVString two = inl (Error (cloudSyncMessage "Alpha")))
    as Ht by (by vm_compute).
  split_and!; [by vm_compute | done | | done | | by vm_compute].
  - by rewrite Hc.
  - rewrite Ht. intros H. vm_compute in H. discriminate H.
Qed.

(** C2 (amended): when some variation has no [publicMediaUrl] or one that
    does not start with https:// (a data URI for instance), the export
    throws and returns nothing; when every variation before the first such
    one has a public HTTPS URL and a suggested board, what it throws is
    the error whose message quotes the title of that first variation. The
    local preview [generatedImageUrl] is never read: replacing it in every
    variation changes nothing. *)
Theorem C2_public_url_gate (data : list CampaignResult) (i : nat)
    (r : CampaignResult) (v : PinVariation) :
  pairs data !! i = Some (r, v) ->
  lacksPublicHttps v ->
  (exists e, generateCSVString data = inl e) /\
  ((forall j r' v', j < i -> pairs data !! j = Some (r', v') ->
      ~ lacksPublicHttps v' /\ suggestedBoards v' <> []) ->
   generateCSVString data = inl (Error (cloudSyncMessage (title v))) /\
   includes (title v) (cloudSyncMessage (title v)) = true) /\
  (forall g, generateCSVString (withPreviews g data) = generateCSVString data).
Proof.
  intros Hi Hv. refine (conj _ (conj _ _)).
  - by eapply blocked_no_output.
  - intros Hbefore. split; [by eapply first_blocked|].
    apply cloudSyncMessage_names.
  - intros g. apply generateCSVString_withPreviews.
Qed.

Lemma C2_public_url_gate_witness :
  let bad := samplePin "Beta" ["b"] (Some "data:image/png;base64,AAAA") in
  let src :=
    sampleSource "https://a.example"
      [ samplePin "Alpha" ["b"] (Some "https://cdn.example/a.png"); bad;
        samplePin "Gamma" ["b"] None ] in
  generateCSVString [src] = inl (Error (cloudSyncMessage "Beta")).
Proof.
  intros bad src.
  refine (proj1 (proj1 (proj2 (C2_public_url_gate [src] 1 src bad _ _)) _)).
  - reflexivity.
  - right. exists "data:image/png;base64,AAAA". split; reflexivity.
  - intros j r' v' Hj Hp.
    destruct j as [|[|j]]; [|lia..].
    injection Hp as <- <-. split.
    + intros [H | (s & H & Hs)]; [discriminate H|].
      injection H as <-. discriminate Hs.
    + discriminate.
Defined.

(** ** Batch integrity *)

Section Batch.

Lemma projectRows_all data :
  Forall (fun p => ~ lacksPublicHttps p.2 /\ suggestedBoards p.2 <> [])
         (pairs data) ->
  exists rows, projectRows data = inr rows /\
               length rows = length (pairs data).
Proof.
  intros Hall. destruct (projectRows data) as [e|rows] eqn:Hrows.
  - rewrite projectRows_pairs in Hrows.
    apply mapM_inl in Hrows as (i & [r v] & Hi & He & _).
    pose proof (Forall_lookup_1 _ _ _ _ Hall Hi) as [Hok Hb]. simpl in *.
    destruct (projectRow_row r v Hok Hb) as (m & b & rest & _ & _ & _ & Hr).
    congruence.
  - exists rows. split; [done|]. by apply projectRows_length.
Qed.

Lemma validateRow_not_batch row idx a b :
  validateRow row idx <> inl (Error (batchMessage a b)).
Proof.
  unfold validateRow.
  repeat match goal with
         | |- context [if ?c then _ else _] => destruct c
         end;
    try destruct (map stripQuotes row !! 1);
    unfold Js.throw, ret; intros H; try discriminate H;
    match type of H with
    | inl (Error ?m) = _ =>
        assert (m = batchMessage a b) as H' by congruence
    end;
    apply (f_equal firstChar) in H';
    rewrite firstChar_row, firstChar_batch in H'; discriminate H'.
Qed.

(** Three variations per source: whatever the export throws, it is not
    the count mismatch. *)
Lemma three_per_source_not_batch data a b :
  Forall (fun r => length (variations r) = 3) data ->
  generateCSVString data <> inl (Error (batchMessage a b)).
Proof.
  intros H3. rewrite generateCSVString_unfold.
  destruct (projectRows data) as [e|rows] eqn:Hrows.
  - rewrite projectRows_pairs in Hrows.
    apply mapM_inl in Hrows as (i & [r v] & _ & He & _).
    apply projectRow_inl in He as [[_ ->] | (_ & _ & ->)]; [|done].
    intros H. simpl in H.
    assert (cloudSyncMessage (title v) = batchMessage a b) as H'
      by congruence.
    apply (f_equal firstChar) in H'.
    rewrite firstChar_cloudSync, firstChar_batch in H'. discriminate H'.
  - rewrite (projectRows_length _ _ Hrows), (length_pairs_three _ H3).
    rewrite Nat.eqb_refl. simpl.
    destruct (forEachM _ 0 rows) as [e|[]] eqn:Hv; [|done].
    apply forEachM_inl in Hv as (i & row & _ & He & _).
    destruct (validateRow row (0 + i + 1)) as [e'|ok] eqn:Hrow;
      [|by simpl in He].
    simpl in He. injection He as ->. intros [= ->].
    by apply validateRow_not_batch in Hrow.
Qed.

End Batch.

(** C3 as stated fails: a single source whose only variation has a public
    HTTPS URL but no suggested board passes the gate and has 1 row for an
    expected 3, yet the export throws the [TypeError] of the missing board
    before it counts the rows. *)
Lemma C3_counterexample :
  let v := samplePin "Alpha" [] (Some "https://cdn.example/a.png") in
  let data := [ sampleSource "https://a.example" [v] ] in
  ~ lacksPublicHttps v /\
  length (pairs data) <> length data * 3 /\
  generateCSVString data = inl TypeError /\
  generateCSVString data <> inl (Error (batchMessage 3 1)).
Proof.
  intros v data.
  assert (generateCSVString data = inl TypeError) as H by (by vm_compute).
  split_and!; [| by vm_compute | done | by rewrite H].
  intros [Hn | (s & Hs & Hp)]; [discriminate Hn|].
  injection Hs as <-. discriminate Hp.
Qed.

(** C3 (amended): when every variation has a public HTTPS URL and a
    suggested board, and the number of variations differs from three times
    the number of sources, the export throws the batch integrity error
    with the two counts and returns nothing. With exactly three variations
    per source the export never throws that error. *)
Theorem C3_batch_integrity (data : list CampaignResult) :
  (Forall (fun p => ~ lacksPublicHttps p.2 /\ suggestedBoards p.2 <> [])
          (pairs data) ->
   length (pairs data) <> length data * 3 ->
   generateCSVString data
   = inl (Error (batchMessage (length data * 3) (length (pairs data))))) /\
  (Forall (fun r => length (variations r) = 3) data ->
   forall expected found,
     generateCSVString data <> inl (Error (batchMessage expected found))).
Proof.
  split.
  - intros Hall Hne.
    destruct (projectRows_all data Hall) as (rows & Hrows & Hlen).
    rewrite generateCSVString_unfold, Hrows, Hlen.
    by destruct (Nat.eqb_spec (length (pairs data)) (length data * 3)).
  - intros H3 expected found. by apply three_per_source_not_batch.
Qed.

(** Two sources with five variations in all are rejected. *)
Lemma C3_batch_integrity_witness :
  let pin t := samplePin t ["b"] (Some "https://cdn.example/a.png") in
  let five :=
    [ sampleSource "https://a.example" [pin "a1"; pin "a2"; pin "a3"];
      sampleSource "https://b.example" [pin "b1"; pin "b2"] ] in
  let six :=
    [ sampleSource "https://a.example" [pin "a1"; pin "a2"; pin "a3"];
      sampleSource "https://b.example" [pin "b1"; pin "b2"; pin "b3"] ] in
  generateCSVString five
  = inl (Error "Batch Integrity Failure: Expected 6 rows, found 5.") /\
  generateCSVString six <> inl (Error (batchMessage 6 6)).
Proof.
  intros pin five six. split.
  - refine (proj1 (C3_batch_integrity five) _ _).
    + repeat constructor; simpl;
        try (intros [H | (s & H & Hs)]; [discriminate H|];
             injection H as <-; discriminate Hs);
        discriminate.
    + simpl. lia.
  - refine (proj2 (C3_batch_integrity six) _ 6 6).
    repeat constructor.
Defined.

(** ** Per-row validation *)

Section Rows.

Lemma dropLastQuote_snoc s :
  dropLastQuote (s +:+ String dquote EmptyString) = s.
Proof.
  induction s as [|c s IH]; [done|].
  rewrite append_cons.
  destruct (s +:+ String dquote EmptyString) as [|a t] eqn:E.
  - by destruct s.
  - change (dropLastQuote (String c (String a t)))
      with (String c (dropLastQuote (String a t))).
    by rewrite IH.
Qed.

Lemma stripQuotes_quoted s : stripQuotes (quoted s) = s.
Proof. unfold quoted, stripQuotes. simpl. apply dropLastQuote_snoc. Qed.

Lemma strip_rowCells r v m b :
  map stripQuotes (rowCells r v m b) = rowValues r v m b.
Proof.
  unfold rowCells, rowValues. cbn [map]. by rewrite !stripQuotes_quoted.
Qed.

Lemma doubleQuotes_empty s : doubleQuotes s = EmptyString -> s = EmptyString.
Proof. destruct s as [|c s]; [done|]. simpl. by destruct (Ascii.eqb c dquote). Qed.

Lemma falsy_isEmpty s : falsy (Some s) = isEmpty s.
Proof. by destruct s. Qed.

Lemma notHttps_Some s : notHttps (Some s) = negb (startsWith "https://" s).
Proof. by destruct s. Qed.

(** [validateRow] on seven cells: the first fault in column order, with
    the index it was given, or [true]. *)
Lemma validateRow_firstFault row idx :
  length row = 7 ->
  validateRow row idx
  = match firstFault (map stripQuotes row) with
    | Some f =>
        inl (Error (rowMessage idx (faultText f (map stripQuotes row))))
    | None => inr true
    end.
Proof.
  intros Hlen.
  destruct row as [|c0 [|c1 [|c2 [|c3 [|c4 [|c5 [|c6 [|? ?]]]]]]]];
    try discriminate Hlen.
  unfold validateRow. cbn [map lookup list_lookup orEmpty firstFault].
  rewrite !falsy_isEmpty, !notHttps_Some.
  destruct (stripQuotes c0) as [|a0 t0]; [done|]. cbn [isEmpty String.length].
  cbn [Nat.ltb Nat.leb orb].
  destruct (negb (startsWith "https://" (stripQuotes c1))
            || includes "data:image" (stripQuotes c1)
            || includes "blob:" (stripQuotes c1)); [done|].
  destruct (isEmpty (stripQuotes c2)); [done|].
  destruct (isEmpty (stripQuotes c3)); [done|].
  destruct (negb (startsWith "https://" (stripQuotes c4))); [done|].
  destruct (isEmpty (stripQuotes c5)); [done|].
  by destruct (isEmpty (stripQuotes c6)).
Qed.

Lemma isEmpty_true s : isEmpty s = true <-> s = EmptyString.
Proof. by destruct s. Qed.

Lemma firstFault_sound cells f :
  firstFault cells = Some f -> hasFault cells f.
Proof.
  destruct cells as [|t [|m [|b [|d [|l [|dt [|k [|? ?]]]]]]]]; try done.
  unfold firstFault.
  destruct (isEmpty t) eqn:Ht.
  { intros [= <-]. apply isEmpty_true in Ht. by subst. }
  destruct (negb (startsWith "https://" m) || includes "data:image" m
            || includes "blob:" m) eqn:Hm.
  { intros [= <-]. exists m. split; [done|].
    apply orb_true_iff in Hm as [Hm|Hm]; [|by auto].
    apply orb_true_iff in Hm as [Hm|Hm]; [|by auto].
    left. by apply negb_true_iff. }
  destruct (isEmpty b) eqn:Hb.
  { intros [= <-]. apply isEmpty_true in Hb. by subst. }
  destruct (isEmpty d) eqn:Hd.
  { intros [= <-]. apply isEmpty_true in Hd. by subst. }
  destruct (negb (startsWith "https://" l)) eqn:Hl.
  { intros [= <-]. exists l. split; [done|]. by apply negb_true_iff. }
  destruct (isEmpty dt) eqn:Hdt.
  { intros [= <-]. apply isEmpty_true in Hdt. by subst. }
  destruct (isEmpty k) eqn:Hk; [|done].
  intros [= <-]. apply isEmpty_true in Hk. by subst.
Qed.

Lemma firstFault_complete cells f :
  length cells = 7 -> hasFault cells f -> is_Some (firstFault cells).
Proof.
  intros Hlen.
  destruct cells as [|t [|m [|b [|d [|l [|dt [|k [|? ?]]]]]]]];
    try discriminate Hlen.
  unfold firstFault. intros Hf.
  destruct (isEmpty t) eqn:Ht; [done|].
  destruct (negb (startsWith "https://" m) || includes "data:image" m
            || includes "blob:" m) eqn:Hm; [done|].
  destruct (isEmpty b) eqn:Hb; [done|].
  destruct (isEmpty d) eqn:Hd; [done|].
  destruct (negb (startsWith "https://" l)) eqn:Hl; [done|].
  destruct (isEmpty dt) eqn:Hdt; [done|].
  destruct (isEmpty k) eqn:Hk; [done|].
  exfalso.
  apply orb_false_iff in Hm as [Hm Hm3].
  apply orb_false_iff in Hm as [Hm1 Hm2].
  apply negb_false_iff in Hm1, Hl.
  destruct f; simpl in Hf.
  - injection Hf as ->. discriminate Ht.
  - destruct Hf as (m' & [= <-] & [H|[H|H]]); congruence.
  - injection Hf as ->. discriminate Hb.
  - injection Hf as ->. discriminate Hd.
  - destruct Hf as (l' & [= <-] & H). congruence.
  - injection Hf as ->. discriminate Hdt.
  - injection Hf as ->. discriminate Hk.
Qed.

(** The rows of a projection that did not throw. *)
Lemma projectRows_rows data rows :
  projectRows data = inr rows ->
  Forall2 (fun p row =>
             exists m b rest,
               publicMediaUrl p.2 = Some m /\
               startsWith "https://" m = true /\
               suggestedBoards p.2 = b :: rest /\
               row = rowCells p.1 p.2 m b)
          (pairs data) rows.
Proof.
  rewrite projectRows_pairs. intros H%mapM_inr.
  revert H. apply Forall2_impl.
  intros [r v] row Hrow. simpl in *.
  destruct (notHttps (publicMediaUrl v)) eqn:Hn.
  { apply notHttps_lacks in Hn.
    by rewrite (projectRow_blocked r v Hn) in Hrow. }
  apply notHttps_has in Hn.
  destruct (suggestedBoards v) as [|b rest] eqn:Hb.
  { by rewrite (projectRow_no_board r v Hn Hb) in Hrow. }
  destruct (projectRow_row r v Hn) as (m & b' & rest' & ? & ? & Hb' & Hr);
    [by rewrite Hb|].
  exists m, b', rest'. rewrite Hb in Hb'. split_and!; try done. congruence.
Qed.

Lemma projectRows_seven data rows :
  projectRows data = inr rows -> Forall (fun row => length row = 7) rows.
Proof.
  intros H%projectRows_rows. apply Forall_forall. intros row Hin.
  apply list_elem_of_In, list_elem_of_lookup in Hin as [i Hi].
  destruct (Forall2_lookup_r _ _ _ _ _ H Hi)
    as (p & _ & m & b & rest & _ & _ & _ & ->).
  reflexivity.
Qed.

(** The export once the rows are projected and counted: the error of
    the first row that has a fault. *)
Lemma first_faulty_row data rows k row f :
  projectRows data = inr rows ->
  length rows = length data * 3 ->
  rows !! k = Some row ->
  firstFault (map stripQuotes row) = Some f ->
  (forall j row', j < k -> rows !! j = Some row' ->
     firstFault (map stripQuotes row') = None) ->
  generateCSVString data
  = inl (Error (rowMessage (k + 1) (faultText f (map stripQuotes row)))).
Proof.
  intros Hrows Hlen Hk Hf Hbefore.
  pose proof (projectRows_seven _ _ Hrows) as H7.
  rewrite generateCSVString_unfold, Hrows, Hlen, Nat.eqb_refl.
  cbn [negb].
  assert (forEachM (fun row idx => run validateRow row (idx + 1) ;; ret tt)
                   0 rows
          = inl (Error (rowMessage (k + 1)
                          (faultText f (map stripQuotes row))))) as ->;
    [|done].
  apply forEachM_inl. exists k, row. split_and!; [done|..].
  - rewrite validateRow_firstFault, Hf;
      [done | by eapply (Forall_lookup_1 _ _ _ _ H7)].
  - intros j row' Hj Hj'.
    rewrite validateRow_firstFault, (Hbefore j row' Hj Hj');
      [done | by eapply (Forall_lookup_1 _ _ _ _ H7)].
Qed.

End Rows.




(** ** The row index in a message *)

Section RowIndex.

Lemma pretty_N_char_noColon x : pretty_N_char x <> ":"%char.
Proof. unfold pretty_N_char. by repeat case_match. Qed.

Lemma pretty_N_go_noColon x s : noColon s -> noColon (pretty_N_go x s).
Proof.
  revert s. induction (N.lt_wf_0 x) as [x _ IH]; intros s Hs.
  assert (x = 0 \/ 0 < x)%N as [->|Hx] by lia.
  - by rewrite pretty_N_go_0.
  - rewrite pretty_N_go_step by done. apply IH.
    + by apply N.div_lt.
    + split; [apply pretty_N_char_noColon | done].
Qed.

Lemma pretty_nat_noColon (n : nat) : noColon (pretty n).
Proof.
  unfold pretty, pretty_nat, pretty, pretty_N.
  case_decide; [by split|]. by apply pretty_N_go_noColon.
Qed.

(** Two strings without colon, each followed by a colon, are recovered
    from the concatenation. *)
Lemma noColon_split d1 d2 s1 s2 :
  noColon d1 -> noColon d2 ->
  d1 +:+ String ":" s1 = d2 +:+ String ":" s2 -> d1 = d2 /\ s1 = s2.
Proof.
  revert d2. induction d1 as [|c d1 IH]; intros [|c' d2] H1 H2 Heq.
  - by injection Heq as ->.
  - rewrite append_cons in Heq. injection Heq as <- _. by destruct H2.
  - rewrite append_cons in Heq. injection Heq as -> _. by destruct H1.
  - rewrite !append_cons in Heq. injection Heq as -> Heq.
    destruct H1 as [_ H1], H2 as [_ H2].
    destruct (IH d2 H1 H2 Heq) as [-> ->]. done.
Qed.

Lemma rowMessage_inj i k what what' :
  rowMessage i what = rowMessage k what' -> i = k /\ what = what'.
Proof.
  unfold rowMessage. intros H.
  apply (inj (String.app "Row ")) in H.
  change (": " +:+ what) with (String ":" (String " " what)) in H.
  change (": " +:+ what') with (String ":" (String " " what')) in H.
  apply noColon_split in H as [Hi Hw]; [|apply pretty_nat_noColon..].
  split; [by apply (inj pretty) | by injection Hw].
Qed.

Lemma faultText_board f cells :
  faultText f cells = "Board empty." -> f = BoardEmpty.
Proof.
  destruct f; try done; intros H; apply (f_equal firstChar) in H;
    discriminate H.
Qed.

End RowIndex.

(** ** The first suggested board *)

Section Boards.

Lemma validateRow_not_TypeError row idx :
  length row = 7 -> validateRow row idx <> inl TypeError.
Proof.
  intros Hlen. rewrite validateRow_firstFault by done.
  by destruct (firstFault _).
Qed.

Lemma boards_present_no_TypeError data :
  Forall (fun p => suggestedBoards p.2 <> []) (pairs data) ->
  generateCSVString data <> inl TypeError.
Proof.
  intros Hall. rewrite generateCSVString_unfold.
  destruct (projectRows data) as [e|rows] eqn:Hrows.
  - rewrite projectRows_pairs in Hrows.
    apply mapM_inl in Hrows as (i & [r v] & Hi & He & _).
    apply projectRow_inl in He as [[_ ->] | (_ & Hb & _)]; [done|].
    by destruct (Forall_lookup_1 _ _ _ _ Hall Hi).
  - destruct (negb _); [done|].
    destruct (forEachM _ 0 rows) as [e|[]] eqn:Hv; [|done].
    apply forEachM_inl in Hv as (i & row & Hi & He & _).
    pose proof (projectRows_seven _ _ Hrows) as H7.
    destruct (validateRow row (0 + i + 1)) as [e'|ok] eqn:Hrow;
      [|by simpl in He].
    simpl in He. injection He as ->. intros [= ->].
    eapply validateRow_not_TypeError; [|exact Hrow].
    by eapply (Forall_lookup_1 _ _ _ _ H7).
Qed.

Lemma board_missing_TypeError data :
  Forall (fun p => ~ lacksPublicHttps p.2) (pairs data) ->
  Exists (fun p => suggestedBoards p.2 = []) (pairs data) ->
  generateCSVString data = inl TypeError.
Proof.
  intros Hall Hex. apply generateCSVString_throws_with_rows.
  destruct (projectRows data) as [e|rows] eqn:Hrows.
  - rewrite projectRows_pairs in Hrows.
    apply mapM_inl in Hrows as (i & [r v] & Hi & He & _).
    apply projectRow_inl in He as [[Hl _] | (_ & _ & ->)]; [|done].
    by destruct (Forall_lookup_1 _ _ _ _ Hall Hi).
  - apply projectRows_rows in Hrows.
    apply Exists_exists in Hex as ([r v] & Hin & Hb).
    apply list_elem_of_In, list_elem_of_lookup in Hin as [i Hi].
    destruct (Forall2_lookup_l _ _ _ _ _ Hrows Hi)
      as (row & _ & m & b & rest & _ & _ & Hb' & _).
    simpl in *. congruence.
Qed.

Lemma board_empty_reached data k :
  generateCSVString data = inl (Error (rowMessage k "Board empty.")) ->
  exists r v rest,
    0 < k /\ pairs data !! (k - 1) = Some (r, v) /\
    suggestedBoards v = EmptyString :: rest.
Proof.
  rewrite generateCSVString_unfold.
  destruct (projectRows data) as [e|rows] eqn:Hrows.
  { rewrite projectRows_pairs in Hrows.
    apply mapM_inl in Hrows as (i & [r v] & _ & He & _).
    apply projectRow_inl in He as [[_ ->] | (_ & _ & ->)]; [|done].
    simpl. intros H.
    assert (cloudSyncMessage (title v) = rowMessage k "Board empty.") as H'
      by congruence.
    apply (f_equal firstChar) in H'. discriminate H'. }
  destruct (negb _).
  { intros H.
    assert (batchMessage (length data * 3) (length rows)
            = rowMessage k "Board empty.") as H' by congruence.
    apply (f_equal firstChar) in H'. discriminate H'. }
  destruct (forEachM _ 0 rows) as [e|[]] eqn:Hv; [|done].
  intros [= ->].
  apply forEachM_inl in Hv as (i & row & Hi & He & _).
  pose proof (projectRows_seven _ _ Hrows) as H7.
  rewrite validateRow_firstFault in He
    by (by eapply (Forall_lookup_1 _ _ _ _ H7)).
  destruct (firstFault (map stripQuotes row)) as [f|] eqn:Hf; [|done].
  simpl in He.
  assert (rowMessage (i + 1) (faultText f (map stripQuotes row))
          = rowMessage k "Board empty.") as Hmsg by congruence.
  apply rowMessage_inj in Hmsg as [<- Htext].
  apply faultText_board in Htext as ->.
  apply firstFault_sound in Hf.
  apply projectRows_rows in Hrows.
  destruct (Forall2_lookup_r _ _ _ _ _ Hrows Hi)
    as ([r v] & Hp & m & b & rest & _ & _ & Hb & ->).
  rewrite strip_rowCells in Hf. simpl in Hf, Hb.
  injection Hf as Hf. apply doubleQuotes_empty in Hf as ->.
  exists r, v, rest. split_and!; [lia| |done].
  by replace (i + 1 - 1) with i by lia.
Qed.

End Boards.



(** ** The text of the table *)

(** An export that does not throw returns the header line followed by one
    line per (source, variation) pair, in order, made of the seven cells
    of [rowCells] in column order. *)
Lemma generateCSVString_success data out :
  generateCSVString data = inr out ->
  exists rows,
    Forall2 (fun p row =>
               exists m b rest,
                 publicMediaUrl p.2 = Some m /\
                 startsWith "https://" m = true /\
                 suggestedBoards p.2 = b :: rest /\
                 row = rowCells p.1 p.2 m b)
            (pairs data) rows /\
    out = csvText rows.
Proof.
  rewrite generateCSVString_unfold.
  destruct (projectRows data) as [e|rows] eqn:Hrows; [done|].
  destruct (negb _); [done|].
  destruct (forEachM _ 0 rows) as [e|[]]; [done|].
  intros [= <-]. exists rows. split; [|done].
  by apply projectRows_rows.
Qed.

(** C4, the link column: the cells of the media URL, the link and the
    publish date are wrapped in double quotes without doubling the double
    quotes they hold. A source URL with a quoted search term is exported
    with its two double quotes as they are, so the table differs from the
    one standard CSV escaping gives (and the line no longer has seven
    well-formed fields). *)
Theorem C4_link_quotes_not_doubled :
  let pin t := samplePin t ["Garden"] (Some "https://cdn.example/a.png") in
  let r := sampleSource quotedLink [pin "one"; pin "two"; pin "three"] in
  let cells v := rowCells r v "https://cdn.example/a.png" "Garden" in
  let escaped v := escapedCells r v "https://cdn.example/a.png" "Garden" in
  generateCSVString [r]
  = inr (csvText [cells (pin "one"); cells (pin "two"); cells (pin "three")]) /\
  cells (pin "one") !! 4 = Some (quoted quotedLink) /\
  escaped (pin "one") !! 4 = Some (quoted (doubleQuotes quotedLink)) /\
  quoted quotedLink <> quoted (doubleQuotes quotedLink) /\
  generateCSVString [r]
  <> inr (csvText [escaped (pin "one"); escaped (pin "two");
                   escaped (pin "three")]).
Proof.
  intros pin r cells escaped.
  assert (generateCSVString [r]
          = inr (csvText [cells (pin "one"); cells (pin "two");
                          cells (pin "three")])) as Hgen by (by vm_compute).
  split_and!; [done | done | done | |].
  - intros H. vm_compute in H. discriminate H.
  - rewrite Hgen. intros H. vm_compute in H. discriminate H.
Qed.

(** * Further properties *)

(** ** The text of a slot *)

Section SlotText.

Local Open Scope Z_scope.

(** A local day that does not exist: on Pacific/Apia, where the clock
    went from the end of 2011-12-29 to the start of 2011-12-31, one item
    a day from the start date 2011-12-29 (read as midnight UTC, the
    afternoon of 2011-12-28 there) gives 2011-12-28, 2011-12-29 and then
    2011-12-31: the day set for the third item, 2011-12-30, is skipped. *)
Lemma apia_skipped_day :
  let results :=
    [ sampleSource "https://a.example" [ samplePin "one" ["b"] None;
                                         samplePin "two" ["b"] None;
                                         samplePin "three" ["b"] None ] ] in
  map (fun r => map scheduledDate (variations r))
      (scheduleCampaign hostApia results (sampleSettings (Num 1) "2011-12-29"))
  = [ [ Some "2011-12-28 09:00"; Some "2011-12-29 09:00";
        Some "2011-12-31 09:00" ] ] /\
  ~ slotSettable hostApia (days_from_civil 2011 12 29 * msPerDay) 1 2.
Proof.
  intros results. split; [by vm_compute|].
  intros [[_ H] _]. vm_compute in H. discriminate H.
Qed.



End SlotText.


(** ** The slots of the scheduler *)

Section Assignment.

Lemma append_nonempty a c b : a +:+ String c b <> EmptyString.
Proof. by destruct a. Qed.

Lemma slotDateStr_nonempty host start p index :
  slotDateStr host start p index <> EmptyString.
Proof.
  unfold slotDateStr. destruct (slotOf p index) as [[dayOffset hour] minute].
  apply append_nonempty.
Qed.

(** X2. Variation [v] of source [u] is given the slot whose index is the
    number of variations of the sources before [u], plus [v]; the
    fallback of the lookup, the empty string, is never used. *)
Theorem scheduleCampaign_assigns host results settings u r v x :
  results !! u = Some r -> variations r !! v = Some x ->
  exists r',
    scheduleCampaign host results settings !! u = Some r' /\
    variations r' !! v
    = Some (withScheduledDate x
              (slotDateStr host (parse host (startDate settings))
                 (effectivePinsPerDay (pinsPerDay settings))
                 (length (pairs (take u results)) + v))) /\
    slotDateStr host (parse host (startDate settings))
      (effectivePinsPerDay (pinsPerDay settings))
      (length (pairs (take u results)) + v) <> EmptyString.
Proof.
  intros Hr Hx. rewrite scheduleCampaign_closed. unfold reassemble.
  eexists. split_and!.
  - by rewrite list_lookup_imap, Hr.
  - simpl. rewrite list_lookup_imap, Hx. simpl. do 2 f_equal.
    unfold assignedDate, flatIndex. do 2 f_equal.
    by rewrite length_pairs, firstn_map.
  - apply slotDateStr_nonempty.
Qed.

Lemma scheduleCampaign_assigns_witness :
  let results :=
    [ sampleSource "https://a.example" [ samplePin "one" ["b"] None;
                                         samplePin "two" ["b"] None ];
      sampleSource "https://b.example" [ samplePin "three" ["b"] None ] ] in
  let settings := sampleSettings (Num 2) "2024-01-01" in
  let slot :=
    slotDateStr hostUTC (parse hostUTC (startDate settings))
      (effectivePinsPerDay (pinsPerDay settings))
      (length (pairs (take 1 results)) + 0) in
  exists r',
    scheduleCampaign hostUTC results settings !! 1 = Some r' /\
    variations r' !! 0
    = Some (withScheduledDate (samplePin "three" ["b"] None) slot) /\
    slot <> EmptyString.
Proof.
  intros results settings slot.
  apply (scheduleCampaign_assigns hostUTC results settings 1
           (sampleSource "https://b.example" [ samplePin "three" ["b"] None ])
           0 (samplePin "three" ["b"] None)); reflexivity.
Defined.

End Assignment.

(** ** How many items a day holds *)

Section Capacity.

Local Open Scope Z_scope.

Lemma countOnDay_S p N d :
  countOnDay p (S N) d
  = (countOnDay p N d + if (dayOffsetOf p N =? d)%Z then 1 else 0)%nat.
Proof.
  unfold countOnDay. rewrite seq_S, List.filter_app, length_app. simpl.
  by destruct (dayOffsetOf p N =? d).
Qed.

Lemma dayOffsetOf_eq p N d :
  0 < p -> (dayOffsetOf p N = d <-> d * p <= Z.of_nat N < d * p + p).
Proof.
  intros Hp. unfold dayOffsetOf. split.
  - intros <-.
    pose proof (Z.div_mod (Z.of_nat N) p ltac:(lia)).
    pose proof (Z.mod_pos_bound (Z.of_nat N) p Hp). lia.
  - intros H. symmetry.
    apply (Z.div_unique _ _ _ (Z.of_nat N - d * p)); lia.
Qed.



End Capacity.

(** ** A start date that does not parse *)

(** X4. When [startDate] does not parse, nothing is thrown: every
    variation is dated with the text of an invalid date. *)
Theorem invalid_start_date host results settings u r' v x' :
  parse host (startDate settings) = NaN ->
  scheduleCampaign host results settings !! u = Some r' ->
  variations r' !! v = Some x' ->
  scheduledDate x' = Some nanDate.
Proof.
  intros Hnan Hr Hx. rewrite scheduleCampaign_closed in Hr.
  unfold reassemble in Hr.
  apply list_lookup_imap_Some in Hr as (r & _ & ->). simpl in Hx.
  apply list_lookup_imap_Some in Hx as (x & _ & ->). simpl.
  unfold assignedDate, slotDateStr. rewrite Hnan.
  by destruct (slotOf _ _) as [[dayOffset hour] minute].
Qed.

Lemma invalid_start_date_witness :
  let results :=
    [ sampleSource "https://a.example" [ samplePin "one" ["b"] None ] ] in
  let settings := sampleSettings (Num 3) "next week" in
  let x' := withScheduledDate (samplePin "one" ["b"] None) nanDate in
  scheduledDate x' = Some nanDate.
Proof.
  intros results settings x'.
  apply (invalid_start_date hostUTC results settings 0
           (withVariations (sampleSource "https://a.example" []) [x'])
           0 x'); reflexivity.
Defined.

(** ** Recording a sync *)

Section Sync.

Import App.

Lemma imap_id_on {A} (f : nat -> A -> A) (l : list A) :
  (forall i x, l !! i = Some x -> f i x = x) -> imap f l = l.
Proof.
  intros H. apply list_eq. intros i. rewrite list_lookup_imap.
  destruct (l !! i) as [x|] eqn:Hi; [|done]. simpl. by rewrite H.
Qed.

Lemma withVariations_same r : withVariations r (variations r) = r.
Proof. by destruct r. Qed.

Lemma withSync_same x b p : sameButSync x (withSync x b p).
Proof. by repeat split. Qed.

Lemma syncResults_lookup urlIdx varIdx b p rs u r :
  rs !! u = Some r ->
  syncResults urlIdx varIdx b p rs !! u
  = Some (if decide (u = urlIdx)
          then withVariations r
                 (imap (fun vIdx x =>
                          if decide (vIdx <> varIdx) then x
                          else withSync x b p)
                       (variations r))
          else r).
Proof.
  intros Hr. unfold syncResults. rewrite list_lookup_imap, Hr. simpl.
  by repeat case_decide.
Qed.

Lemma variationAt_sync urlIdx varIdx b p rs u v :
  variationAt (syncResults urlIdx varIdx b p rs) u v
  = (fun x => if decide (u = urlIdx /\ v = varIdx)
              then withSync x b p else x) <$> variationAt rs u v.
Proof.
  unfold variationAt.
  destruct (rs !! u) as [r|] eqn:Hr.
  - rewrite (syncResults_lookup _ _ _ _ _ _ _ Hr).
    destruct (decide (u = urlIdx)) as [->|Hne].
    + simpl. rewrite list_lookup_imap.
      destruct (variations r !! v) as [x|]; [|done]. simpl.
      by repeat case_decide; try tauto.
    + destruct (variations r !! v) as [x|]; [|done]. simpl.
      by case_decide; try tauto.
  - unfold syncResults. by rewrite list_lookup_imap, Hr.
Qed.

Lemma syncResults_out_of_range urlIdx varIdx b p rs :
  variationAt rs urlIdx varIdx = None ->
  syncResults urlIdx varIdx b p rs = rs.
Proof.
  intros Hnone. unfold syncResults. apply imap_id_on. intros u r Hr.
  case_decide as Hu; [done|].
  assert (u = urlIdx) as -> by (destruct (decide (u = urlIdx)); tauto).
  unfold variationAt in Hnone. rewrite Hr in Hnone.
  rewrite imap_id_on; [apply withVariations_same|].
  intros v x Hx. case_decide as Hv; [done|].
  assert (v = varIdx) as -> by (destruct (decide (v = varIdx)); tauto).
  congruence.
Qed.

Lemma results_eq (rs rs' : list CampaignResult) :
  (forall u, rs !! u = None <-> rs' !! u = None) ->
  (forall u r r', rs !! u = Some r -> rs' !! u = Some r' ->
     sourceUrl r = sourceUrl r' /\ analysis r = analysis r' /\
     variations r = variations r') ->
  rs = rs'.
Proof.
  intros Hnone Hsome. apply list_eq. intros u.
  destruct (rs !! u) as [r|] eqn:Hr, (rs' !! u) as [r'|] eqn:Hr'.
  - destruct (Hsome u r r' Hr Hr') as (H1 & H2 & H3).
    destruct r, r'. simpl in *. by subst.
  - apply Hnone in Hr'. congruence.
  - apply Hnone in Hr. congruence.
  - done.
Qed.

(** X5. [handleSyncComplete] leaves a state without results as it is,
    and results that have no variation at the coordinates as well;
    otherwise it keeps the shape of the results, sets the two URLs of the
    variation at the coordinates (every other property of it kept), and
    changes no other variation. *)
Theorem handleSyncComplete_frame urlIdx varIdx b p prev :
  (results prev = None -> handleSyncComplete urlIdx varIdx b p prev = prev) /\
  (forall rs, results prev = Some rs ->
     variationAt rs urlIdx varIdx = None ->
     handleSyncComplete urlIdx varIdx b p prev = prev) /\
  (forall rs, results prev = Some rs ->
     exists rs',
       results (handleSyncComplete urlIdx varIdx b p prev) = Some rs' /\
       loading (handleSyncComplete urlIdx varIdx b p prev) = loading prev /\
       error (handleSyncComplete urlIdx varIdx b p prev) = error prev /\
       Forall2 (fun r r' =>
                  sourceUrl r' = sourceUrl r /\ analysis r' = analysis r /\
                  length (variations r') = length (variations r))
               rs rs' /\
       (forall u v,
          (u, v) <> (urlIdx, varIdx) ->
          variationAt rs' u v = variationAt rs u v) /\
       (forall x,
          variationAt rs urlIdx varIdx = Some x ->
          exists x',
            variationAt rs' urlIdx varIdx = Some x' /\
            sameButSync x x' /\
            generatedImageUrl x' = Some b /\ publicMediaUrl x' = Some p)).
Proof.
  refine (conj _ (conj _ _)).
  - intros H. unfold handleSyncComplete. by rewrite H.
  - intros rs H Hnone. unfold handleSyncComplete. rewrite H.
    rewrite syncResults_out_of_range by done. destruct prev. simpl in *.
    by subst.
  - intros rs H. unfold handleSyncComplete. rewrite H. simpl.
    eexists. split_and!; try done.
    + apply Forall2_imap_r. intros u r _. simpl.
      case_decide; [done|]. simpl. split_and!; try done. apply length_imap.
    + intros u v Hne. rewrite variationAt_sync.
      destruct (variationAt rs u v) as [x|]; [|done]. simpl.
      case_decide as Hc; [|done]. destruct Hc as [-> ->]. done.
    + intros x Hx. rewrite variationAt_sync, Hx. simpl.
      rewrite decide_True by done.
      eexists. split_and!; first [done | apply withSync_same].
Qed.

Lemma handleSyncComplete_frame_witness :
  let rs :=
    [ sampleSource "https://a.example" [ samplePin "one" ["b"] None ] ] in
  handleSyncComplete 5 0 "data:image/png;base64,BBBB"
    "https://cdn.example/one.png" (stateOf rs)
  = stateOf rs.
Proof.
  intros rs.
  apply (proj1 (proj2 (handleSyncComplete_frame 5 0
                         "data:image/png;base64,BBBB"
                         "https://cdn.example/one.png" (stateOf rs))) rs);
    reflexivity.
Defined.

Lemma syncResults_ext (rs rs' : list CampaignResult) :
  length rs = length rs' ->
  (forall u r r', rs !! u = Some r -> rs' !! u = Some r' ->
     sourceUrl r = sourceUrl r' /\ analysis r = analysis r' /\
     variations r = variations r') ->
  rs = rs'.
Proof.
  intros Hlen H. apply results_eq; [|done].
  intros u. rewrite !lookup_ge_None. lia.
Qed.

Lemma variations_sync urlIdx varIdx b p rs u r :
  rs !! u = Some r ->
  exists r', syncResults urlIdx varIdx b p rs !! u = Some r' /\
    sourceUrl r' = sourceUrl r /\ analysis r' = analysis r /\
    variations r'
    = imap (fun v x => if decide (u = urlIdx /\ v = varIdx)
                       then withSync x b p else x) (variations r).
Proof.
  intros Hr. rewrite (syncResults_lookup _ _ _ _ _ _ _ Hr).
  eexists. split; [done|].
  destruct (decide (u = urlIdx)) as [->|Hne]; simpl.
  - split_and!; try done. apply imap_ext. intros v x _.
    by repeat case_decide; try tauto.
  - split_and!; try done. symmetry. apply imap_id_on. intros v x _.
    by case_decide; try tauto.
Qed.

Lemma length_syncResults urlIdx varIdx b p rs :
  length (syncResults urlIdx varIdx b p rs) = length rs.
Proof. apply length_imap. Qed.

(** X6. Two syncs at different coordinates can be recorded in either
    order; of two syncs at the same coordinates the later one stays. *)
Theorem handleSyncComplete_order u1 v1 b1 p1 u2 v2 b2 p2 prev :
  ((u1, v1) <> (u2, v2) ->
   handleSyncComplete u1 v1 b1 p1 (handleSyncComplete u2 v2 b2 p2 prev)
   = handleSyncComplete u2 v2 b2 p2 (handleSyncComplete u1 v1 b1 p1 prev)) /\
  handleSyncComplete u1 v1 b1 p1 (handleSyncComplete u1 v1 b2 p2 prev)
  = handleSyncComplete u1 v1 b1 p1 prev.
Proof.
  unfold handleSyncComplete.
  destruct (results prev) as [rs|] eqn:Hrs; simpl; [|by rewrite Hrs].
  split.
  - intros Hne. f_equal. f_equal.
    apply syncResults_ext; [by rewrite !length_syncResults|].
    intros u r r' Hr Hr'.
    destruct (rs !! u) as [r0|] eqn:Hr0.
    2:{ apply lookup_ge_None in Hr0.
        apply lookup_lt_Some in Hr. rewrite !length_syncResults in Hr. lia. }
    destruct (variations_sync u2 v2 b2 p2 rs u r0 Hr0)
      as (ra & Ha & Ha1 & Ha2 & Ha3).
    destruct (variations_sync u1 v1 b1 p1 _ u ra Ha)
      as (rab & Hab & Hab1 & Hab2 & Hab3).
    destruct (variations_sync u1 v1 b1 p1 rs u r0 Hr0)
      as (rb & Hb & Hb1 & Hb2 & Hb3).
    destruct (variations_sync u2 v2 b2 p2 _ u rb Hb)
      as (rba & Hba & Hba1 & Hba2 & Hba3).
    assert (r = rab) as -> by congruence.
    assert (r' = rba) as -> by congruence.
    split_and!; [congruence..|].
    rewrite Hab3, Ha3, Hba3, Hb3, !imap_imap. apply imap_ext.
    intros v x _. simpl.
    repeat case_decide; try done;
      destruct Hne; intuition congruence.
  - f_equal. f_equal.
    apply syncResults_ext; [by rewrite !length_syncResults|].
    intros u r r' Hr Hr'.
    destruct (rs !! u) as [r0|] eqn:Hr0.
    2:{ apply lookup_ge_None in Hr0.
        apply lookup_lt_Some in Hr'. rewrite !length_syncResults in Hr'. lia. }
    destruct (variations_sync u1 v1 b2 p2 rs u r0 Hr0)
      as (ra & Ha & Ha1 & Ha2 & Ha3).
    destruct (variations_sync u1 v1 b1 p1 _ u ra Ha)
      as (rab & Hab & Hab1 & Hab2 & Hab3).
    destruct (variations_sync u1 v1 b1 p1 rs u r0 Hr0)
      as (rb & Hb & Hb1 & Hb2 & Hb3).
    assert (r = rab) as -> by congruence.
    assert (r' = rb) as -> by congruence.
    split_and!; [congruence..|].
    rewrite Hab3, Ha3, Hb3, !imap_imap. apply imap_ext.
    intros v x _. simpl. by repeat case_decide.
Qed.

Lemma handleSyncComplete_order_witness :
  let prev :=
    stateOf [ sampleSource "https://a.example"
                [ samplePin "one" ["b"] None; samplePin "two" ["b"] None ] ] in
  handleSyncComplete 0 0 "data:image/png;base64,AAAA"
    "https://cdn.example/one.png"
    (handleSyncComplete 0 1 "data:image/png;base64,BBBB"
       "https://cdn.example/two.png" prev)
  = handleSyncComplete 0 1 "data:image/png;base64,BBBB"
      "https://cdn.example/two.png"
      (handleSyncComplete 0 0 "data:image/png;base64,AAAA"
         "https://cdn.example/one.png" prev).
Proof.
  intros prev.
  apply (proj1 (handleSyncComplete_order 0 0 "data:image/png;base64,AAAA"
                  "https://cdn.example/one.png" 0 1
                  "data:image/png;base64,BBBB"
                  "https://cdn.example/two.png" prev)).
  discriminate.
Defined.

(** X7. Scheduling and recording a sync commute: a sync does not
    disturb the dates, and scheduling again keeps the synced URLs. *)
Theorem schedule_sync_commute host settings urlIdx varIdx b p rs :
  scheduleCampaign host (syncResults urlIdx varIdx b p rs) settings
  = syncResults urlIdx varIdx b p (scheduleCampaign host rs settings).
Proof.
  rewrite !scheduleCampaign_closed.
  rewrite (reassemble_ext _ (assignedDate host rs settings)).
  2:{ intros u v. apply assignedDate_shape.
      unfold syncResults. change (map ?f ?l) with (f <$> l).
      rewrite fmap_imap.
      rewrite (imap_ext _ (fun _ r => length (variations r)));
        [apply imap_no_index|].
      intros i r _. simpl. case_decide; [done|]. simpl. apply length_imap. }
  unfold reassemble, syncResults. rewrite !imap_imap.
  apply imap_ext. intros u r _. simpl.
  case_decide; [done|]. unfold withVariations. simpl. f_equal.
  rewrite !imap_imap. apply imap_ext. intros v x _. simpl.
  by case_decide.
Qed.

End Sync.

(** ** Counting the synced variations *)

Section Counters.

Import App.

Lemma foldl_add {A} (f : A -> nat) (l : list A) (a : nat) :
  foldl (fun acc x => acc + f x) a l = a + sum_list (f <$> l).
Proof.
  revert a. induction l as [|x l IH]; intros a; [simpl; lia|].
  rewrite fmap_cons. simpl. rewrite IH. lia.
Qed.

Lemma length_filter_sum {A} (h : A -> bool) (l : list A) :
  length (List.filter h l) = sum_list ((fun x => if h x then 1 else 0) <$> l).
Proof.
  induction l as [|x l IH]; [done|].
  rewrite fmap_cons. simpl. destruct (h x); simpl; by rewrite IH.
Qed.

Lemma sum_list_insert {A} (g : A -> nat) (l : list A) i x y :
  l !! i = Some x ->
  sum_list (g <$> <[i:=y]> l) + g x = sum_list (g <$> l) + g y.
Proof.
  revert i. induction l as [|z l IH]; intros [|i] Hi; simpl in *; try done.
  - injection Hi as ->. lia.
  - specialize (IH i Hi). unfold fmap in IH. lia.
Qed.

Lemma cloudReadyCount_sum prev rs :
  results prev = Some rs ->
  cloudReadyCount prev
  = sum_list ((fun r => length (List.filter ready (variations r))) <$> rs).
Proof.
  intros H. unfold cloudReadyCount. rewrite H.
  by rewrite (foldl_add (fun r => length (List.filter ready (variations r)))).
Qed.

Lemma ready_pairs rs :
  sum_list ((fun r => length (List.filter ready (variations r))) <$> rs)
  = length (List.filter (fun q => ready q.2) (pairs rs)).
Proof.
  unfold pairs. induction rs as [|r rs IH]; [done|].
  rewrite fmap_cons. cbn [sum_list sum_list_with map concat id].
  rewrite List.filter_app, length_app, <- IH. f_equal.
  induction (variations r) as [|x l IHl]; [done|].
  cbn [map List.filter fst snd]. destruct (ready x); simpl; by rewrite IHl.
Qed.

Lemma cloudReadyCount_pairs prev rs :
  results prev = Some rs ->
  cloudReadyCount prev = length (List.filter (fun q => ready q.2) (pairs rs)).
Proof.
  intros H. rewrite (cloudReadyCount_sum prev rs H). apply ready_pairs.
Qed.

Lemma syncResults_insert urlIdx varIdx b p rs r x :
  rs !! urlIdx = Some r -> variations r !! varIdx = Some x ->
  syncResults urlIdx varIdx b p rs
  = <[urlIdx := withVariations r (<[varIdx := withSync x b p]> (variations r))]>
      rs.
Proof.
  intros Hr Hx. apply list_eq. intros u.
  destruct (decide (u = urlIdx)) as [->|Hne].
  - rewrite (syncResults_lookup _ _ _ _ _ _ _ Hr), decide_True by done.
    rewrite list_lookup_insert_eq by (by eapply lookup_lt_Some).
    do 2 f_equal. apply list_eq. intros v. rewrite list_lookup_imap.
    destruct (decide (v = varIdx)) as [->|Hv].
    + rewrite Hx, list_lookup_insert_eq by (by eapply lookup_lt_Some).
      simpl. by rewrite decide_False by (intros H; by apply H).
    + rewrite list_lookup_insert_ne by done.
      destruct (variations r !! v); [|done]. simpl.
      by rewrite decide_True by done.
  - rewrite list_lookup_insert_ne by done.
    unfold syncResults. rewrite list_lookup_imap.
    destruct (rs !! u); [|done]. simpl. by rewrite decide_True by done.
Qed.

(** X8. The count of synced variations never exceeds the number of
    variations, and recording a sync with a non-empty URL at coordinates
    that exist adds one to it when that variation had no URL, and nothing
    otherwise. *)
Theorem cloudReadyCount_sync urlIdx varIdx b p prev rs x :
  results prev = Some rs ->
  variationAt rs urlIdx varIdx = Some x ->
  p <> EmptyString ->
  cloudReadyCount (handleSyncComplete urlIdx varIdx b p prev)
  = cloudReadyCount prev + (if falsy (publicMediaUrl x) then 1 else 0) /\
  cloudReadyCount prev <= length (pairs rs).
Proof.
  intros Hrs Hx Hp. split.
  - unfold variationAt in Hx.
    destruct (rs !! urlIdx) as [r|] eqn:Hr; [|done].
    rewrite (cloudReadyCount_sum prev rs Hrs).
    rewrite (cloudReadyCount_sum _ (syncResults urlIdx varIdx b p rs))
      by (unfold handleSyncComplete; by rewrite Hrs).
    rewrite (syncResults_insert _ _ _ _ _ r x Hr Hx).
    pose proof (sum_list_insert
                  (fun r => length (List.filter ready (variations r)))
                  rs urlIdx r
                  (withVariations r
                     (<[varIdx := withSync x b p]> (variations r))) Hr) as H1.
    simpl in H1. rewrite !length_filter_sum in H1.
    pose proof (sum_list_insert (fun x => if ready x then 1 else 0)
                  (variations r) varIdx x (withSync x b p) Hx) as H2.
    simpl in H2.
    assert (ready (withSync x b p) = true) as Hready
      by (unfold ready; simpl; by destruct p).
    rewrite Hready in H2. unfold ready at 2 in H2.
    destruct (falsy (publicMediaUrl x)); simpl in H2; lia.
  - rewrite (cloudReadyCount_pairs prev rs Hrs).
    rewrite length_filter_sum.
    induction (pairs rs) as [|q l IH]; [done|].
    rewrite fmap_cons. simpl. destruct (ready q.2); lia.
Qed.

Lemma cloudReadyCount_sync_witness :
  let rs :=
    [ sampleSource "https://a.example"
        [ samplePin "one" ["b"] (Some "https://cdn.example/one.png");
          samplePin "two" ["b"] None ] ] in
  cloudReadyCount
    (handleSyncComplete 0 1 "data:image/png;base64,BBBB"
       "https://cdn.example/two.png" (stateOf rs))
  = cloudReadyCount (stateOf rs)
    + (if falsy (publicMediaUrl (samplePin "two" ["b"] None)) then 1 else 0) /\
  cloudReadyCount (stateOf rs) <= length (pairs rs).
Proof.
  intros rs.
  apply (cloudReadyCount_sync 0 1 "data:image/png;base64,BBBB"
           "https://cdn.example/two.png" (stateOf rs) rs
           (samplePin "two" ["b"] None));
    [reflexivity | reflexivity | discriminate].
Defined.

(** X9. Whenever the export of non-empty results returns a text, the
    state counts every pin as synced: the export can only succeed with
    [isAllSynced] true. *)
Theorem export_needs_all_synced state data out :
  results state = Some data -> data <> [] ->
  generateCSVString data = inr out ->
  isAllSynced state = true.
Proof.
  intros Hdata Hne Hgen. rewrite generateCSVString_unfold in Hgen.
  destruct (projectRows data) as [e|rows] eqn:Hrows; [done|].
  destruct (Nat.eqb_spec (length rows) (length data * 3)) as [Hlen|];
    [|done].
  unfold isAllSynced, totalPins. rewrite Hdata.
  rewrite (cloudReadyCount_pairs state data Hdata).
  pose proof (projectRows_rows _ _ Hrows) as Hall.
  assert (List.filter (fun q => ready q.2) (pairs data) = pairs data) as ->.
  { apply forallb_filter_id.
    apply forallb_forall. intros q Hin.
    apply list_elem_of_In, list_elem_of_lookup in Hin as [i Hi].
    destruct (Forall2_lookup_l _ _ _ _ _ Hall Hi)
      as (row & _ & m & b & rest & Hm & Hs & _).
    unfold ready. rewrite Hm. by destruct m. }
  rewrite <- (projectRows_length _ _ Hrows), Hlen, Nat.eqb_refl.
  destruct data; [done|]. reflexivity.
Qed.

Lemma export_needs_all_synced_witness :
  let pin t := samplePin t ["b"] (Some "https://cdn.example/a.png") in
  let data :=
    [ sampleSource "https://a.example" [pin "a1"; pin "a2"; pin "a3"] ] in
  isAllSynced (stateOf data) = true.
Proof.
  intros pin data.
  eapply (export_needs_all_synced (stateOf data) data);
    [reflexivity | discriminate | vm_compute; reflexivity].
Defined.

End Counters.

(** ** When the export returns a table *)

Section ExportSuccess.

Lemma isEmpty_false s : isEmpty s = false <-> s <> EmptyString.
Proof. by destruct s. Qed.

Lemma doubleQuotes_nonempty s : doubleQuotes s <> EmptyString <-> s <> EmptyString.
Proof.
  split.
  - by intros H ->.
  - intros H Hd. by apply doubleQuotes_empty in Hd.
Qed.

Lemma exportRow_of q m b rest :
  publicMediaUrl q.2 = Some m -> suggestedBoards q.2 = b :: rest ->
  exportRow q = rowCells q.1 q.2 m b.
Proof. intros Hm Hb. unfold exportRow. by rewrite Hm, Hb. Qed.

(** No fault in the stripped cells of a row, in the words of the checks. *)
Lemma firstFault_none r v m b :
  firstFault (rowValues r v m b) = None <->
  title v <> EmptyString /\
  (startsWith "https://" m = true /\ includes "data:image" m = false /\
   includes "blob:" m = false) /\
  b <> EmptyString /\ description v <> EmptyString /\
  startsWith "https://" (sourceUrl r) = true /\
  Csv.orEmpty (scheduledDate v) <> EmptyString /\
  join ", " (keywords v) <> EmptyString.
Proof.
  unfold rowValues, firstFault.
  rewrite <- (doubleQuotes_nonempty (title v)), <- (doubleQuotes_nonempty b),
    <- (doubleQuotes_nonempty (description v)),
    <- (doubleQuotes_nonempty (join ", " (keywords v))).
  rewrite <- (isEmpty_false (doubleQuotes (title v))),
    <- (isEmpty_false (doubleQuotes b)),
    <- (isEmpty_false (doubleQuotes (description v))),
    <- (isEmpty_false (doubleQuotes (join ", " (keywords v)))),
    <- (isEmpty_false (Csv.orEmpty (scheduledDate v))).
  destruct (isEmpty (doubleQuotes (title v))); [by split; [|intros [? _]]|].
  destruct (startsWith "https://" m); simpl;
    [|by split; [|intros (_ & (? & _) & _)]].
  destruct (includes "data:image" m); simpl;
    [by split; [|intros (_ & (_ & ? & _) & _)]|].
  destruct (includes "blob:" m); simpl;
    [by split; [|intros (_ & (_ & _ & ?) & _)]|].
  destruct (isEmpty (doubleQuotes b)); [by split; [|intros (_ & _ & ? & _)]|].
  destruct (isEmpty (doubleQuotes (description v)));
    [by split; [|intros (_ & _ & _ & ? & _)]|].
  destruct (startsWith "https://" (sourceUrl r)); simpl;
    [|by split; [|intros (_ & _ & _ & _ & ? & _)]].
  destruct (isEmpty (Csv.orEmpty (scheduledDate v)));
    [by split; [|intros (_ & _ & _ & _ & _ & ? & _)]|].
  destruct (isEmpty (doubleQuotes (join ", " (keywords v))));
    [by split; [|intros (_ & _ & _ & _ & _ & _ & ?)]|].
  done.
Qed.

Lemma exportable_no_fault r v m b rest :
  publicMediaUrl v = Some m -> suggestedBoards v = b :: rest ->
  (firstFault (rowValues r v m b) = None <-> exportable r v).
Proof.
  intros Hm Hb. rewrite firstFault_none. unfold exportable. split.
  - intros (Ht & (H1 & H2 & H3) & Hbn & Hd & Hl & Hdate & Hk).
    split_and!; try done.
    + by exists m.
    + by exists b, rest.
    + destruct (scheduledDate v) as [d|]; [by exists d|done].
  - intros ((m' & Hm' & H1 & H2 & H3) & Ht & (b' & rest' & Hb' & Hbn) & Hd
            & Hl & (d & Hdate & Hdn) & Hk).
    assert (m' = m) as -> by congruence.
    assert (b' = b) as -> by congruence.
    split_and!; try done. by rewrite Hdate.
Qed.

Lemma validateRow_ok_iff row idx :
  length row = 7 ->
  (validateRow row idx = inr true <-> firstFault (map stripQuotes row) = None).
Proof.
  intros Hlen. rewrite validateRow_firstFault by done.
  by destruct (firstFault _).
Qed.

(** X10. The export returns a table exactly when there are three times
    as many variations as sources and every variation passes every
    check; the table is then the header line and the rows of the
    variations, in order. *)
Theorem export_succeeds_iff (data : list CampaignResult) (out : string) :
  generateCSVString data = inr out <->
  length (pairs data) = length data * 3 /\
  Forall (fun q => exportable q.1 q.2) (pairs data) /\
  out = csvText (map exportRow (pairs data)).
Proof.
  rewrite generateCSVString_unfold. split.
  - destruct (projectRows data) as [e|rows] eqn:Hrows; [done|].
    destruct (Nat.eqb_spec (length rows) (length data * 3)) as [Hlen|];
      [|done].
    cbn [negb].
    destruct (forEachM _ 0 rows) as [e|[]] eqn:Hv; [done|].
    intros [= <-].
    pose proof (projectRows_rows _ _ Hrows) as Hall.
    pose proof (projectRows_seven _ _ Hrows) as H7.
    pose proof (proj1 (forEachM_inr _ _ _) Hv) as Hvalid.
    assert (rows = map exportRow (pairs data)) as Heq.
    { apply list_eq. intros i. change (map ?f ?l) with (f <$> l).
      rewrite list_lookup_fmap.
      destruct (pairs data !! i) as [q|] eqn:Hq.
      - destruct (Forall2_lookup_l _ _ _ _ _ Hall Hq)
          as (row & Hrow & m & b & rest & Hm & _ & Hb & ->).
        rewrite Hrow. simpl. f_equal. symmetry. by eapply exportRow_of.
      - apply lookup_ge_None in Hq. apply lookup_ge_None.
        pose proof (Forall2_length Hall) as Hl2. lia. }
    split_and!.
    + by rewrite <- (projectRows_length _ _ Hrows).
    + apply Forall_lookup. intros i q Hq.
      destruct (Forall2_lookup_l _ _ _ _ _ Hall Hq)
        as (row & Hrow & m & b & rest & Hm & _ & Hb & ->).
      specialize (Hvalid i _ Hrow). simpl in Hvalid.
      destruct (validateRow _ (i + 1)) as [e|ok] eqn:Hok; [done|].
      rewrite validateRow_firstFault in Hok by done.
      rewrite strip_rowCells in Hok.
      destruct (firstFault (rowValues q.1 q.2 m b)) eqn:Hf; [done|].
      by apply (exportable_no_fault q.1 q.2 m b rest Hm Hb).
    + by rewrite <- Heq.
  - intros (Hlen & Hall & ->).
    assert (projectRows data = inr (map exportRow (pairs data))) as ->.
    { rewrite projectRows_pairs. apply mapM_inr.
      change (map ?f ?l) with (f <$> l).
      apply Forall2_fmap_r, Forall_Forall2_diag.
      revert Hall. apply Forall_impl. intros [r v] Hex. simpl in *.
      destruct Hex as ((m & Hm & Hs & _) & _ & (b & rest & Hb & _) & _).
      destruct (projectRow_row r v) as (m' & b' & rest' & Hm' & _ & Hb' & ->).
      - intros [Hn | (s0 & Hs0 & Hp)]; congruence.
      - by rewrite Hb.
      - f_equal. symmetry.
        by apply (exportRow_of (r, v) m' b' rest'). }
    rewrite length_map, Hlen, Nat.eqb_refl. cbn [negb].
    assert (forEachM (fun row idx => run validateRow row (idx + 1) ;; ret tt)
                     0 (map exportRow (pairs data)) = inr tt) as ->; [|done].
    apply forEachM_inr. intros i row Hrow.
    change (map ?f ?l) with (f <$> l) in Hrow.
    rewrite list_lookup_fmap in Hrow.
    destruct (pairs data !! i) as [q|] eqn:Hq; [|done].
    injection Hrow as <-.
    pose proof (Forall_lookup_1 _ _ _ _ Hall Hq) as Hex.
    pose proof Hex as ((m & Hm & _) & _ & (b & rest & Hb & _) & _).
    rewrite (exportRow_of q m b rest Hm Hb).
    rewrite validateRow_firstFault by done. rewrite strip_rowCells.
    by rewrite (proj2 (exportable_no_fault q.1 q.2 m b rest Hm Hb) Hex).
Qed.

Lemma export_succeeds_iff_witness :
  let pin t := samplePin t ["b"] (Some "https://cdn.example/a.png") in
  let data :=
    [ sampleSource "https://a.example" [pin "a1"; pin "a2"; pin "a3"] ] in
  generateCSVString data = inr (csvText (map exportRow (pairs data))).
Proof.
  intros pin data.
  apply (proj2 (export_succeeds_iff data
                  (csvText (map exportRow (pairs data))))).
  split_and!; [reflexivity | | reflexivity].
  repeat constructor; try discriminate;
    solve [ eexists; split_and!; reflexivity
          | eexists; split; [reflexivity | discriminate]
          | eexists _, _; split; [reflexivity | discriminate] ].
Defined.

End ExportSuccess.

(** ** Scheduled dates reach the export *)

Section Dated.

Import App.

Lemma pairs_cons r data :
  pairs (r :: data) = (map (pair r) (variations r) ++ pairs data)%list.
Proof. reflexivity. Qed.

Lemma elem_of_pairs r x (data : list CampaignResult) :
  (r, x) ∈ pairs data <->
  exists u v, data !! u = Some r /\ variations r !! v = Some x.
Proof.
  induction data as [|r0 data IH].
  - split; [by intros ?%elem_of_nil | by intros (u & v & ? & _)].
  - rewrite pairs_cons, elem_of_app, IH.
    change (map ?f ?l) with (f <$> l). rewrite list_elem_of_fmap. split.
    + intros [(x0 & [= -> ->] & Hin) | (u & v & Hu & Hv)].
      * apply list_elem_of_lookup in Hin as [v Hv]. by exists 0, v.
      * by exists (S u), v.
    + intros ([|u] & v & Hu & Hv).
      * injection Hu as ->. left. exists x. split; [done|].
        by apply list_elem_of_lookup; exists v.
      * right. by exists u, v.
Qed.

Lemma allDated_lookup (data : list CampaignResult) :
  allDated data <->
  forall u v x, variationAt data u v = Some x ->
    exists d, scheduledDate x = Some d /\ d <> EmptyString.
Proof.
  unfold allDated, variationAt. rewrite list.Forall_forall. split.
  - intros H u v x Hx. destruct (data !! u) as [r|] eqn:Hr; [|done].
    apply (H (r, x)). apply elem_of_pairs. by exists u, v.
  - intros H [r x] (u & v & Hu & Hv)%elem_of_pairs. simpl.
    apply (H u v x). by rewrite Hu.
Qed.

Lemma allDated_scheduleCampaign host results settings :
  allDated (scheduleCampaign host results settings).
Proof.
  apply allDated_lookup. intros u v x' Hx'. unfold variationAt in Hx'.
  rewrite scheduleCampaign_closed in Hx'. unfold reassemble in Hx'.
  rewrite list_lookup_imap in Hx'.
  destruct (results !! u) as [r|]; [|done]. simpl in Hx'.
  apply list_lookup_imap_Some in Hx' as (x & _ & ->). simpl.
  eexists. split; [done|]. apply slotDateStr_nonempty.
Qed.

Lemma allDated_syncResults urlIdx varIdx b p rs :
  allDated rs -> allDated (syncResults urlIdx varIdx b p rs).
Proof.
  rewrite !allDated_lookup. intros H u v x'. rewrite variationAt_sync.
  destruct (variationAt rs u v) as [x|] eqn:Hx; [|done].
  intros [= <-]. destruct (H u v x Hx) as (d & Hd & Hne).
  exists d. split; [|done]. by case_decide.
Qed.

Lemma allDated_syncAll syncs rs : allDated rs -> allDated (syncAll syncs rs).
Proof.
  revert rs. induction syncs as [|s syncs IH]; intros rs H; [done|].
  apply IH. by apply allDated_syncResults.
Qed.

Lemma faultText_date f cells :
  faultText f cells = "Date empty." -> f = DateEmpty.
Proof.
  destruct f; try done; intros H; apply (f_equal firstChar) in H;
    discriminate H.
Qed.

Lemma date_empty_reached data k :
  generateCSVString data = inl (Error (rowMessage k "Date empty.")) ->
  exists r v,
    0 < k /\ pairs data !! (k - 1) = Some (r, v) /\
    falsy (scheduledDate v) = true.
Proof.
  rewrite generateCSVString_unfold.
  destruct (projectRows data) as [e|rows] eqn:Hrows.
  { rewrite projectRows_pairs in Hrows.
    apply mapM_inl in Hrows as (i & [r v] & _ & He & _).
    apply projectRow_inl in He as [[_ ->] | (_ & _ & ->)]; [|done].
    simpl. intros H.
    assert (cloudSyncMessage (title v) = rowMessage k "Date empty.") as H'
      by congruence.
    apply (f_equal firstChar) in H'. discriminate H'. }
  destruct (negb _).
  { intros H.
    assert (batchMessage (length data * 3) (length rows)
            = rowMessage k "Date empty.") as H' by congruence.
    apply (f_equal firstChar) in H'. discriminate H'. }
  destruct (forEachM _ 0 rows) as [e|[]] eqn:Hv; [|done].
  intros [= ->].
  apply forEachM_inl in Hv as (i & row & Hi & He & _).
  pose proof (projectRows_seven _ _ Hrows) as H7.
  rewrite validateRow_firstFault in He
    by (by eapply (Forall_lookup_1 _ _ _ _ H7)).
  destruct (firstFault (map stripQuotes row)) as [f|] eqn:Hf; [|done].
  simpl in He.
  assert (rowMessage (i + 1) (faultText f (map stripQuotes row))
          = rowMessage k "Date empty.") as Hmsg by congruence.
  apply rowMessage_inj in Hmsg as [<- Htext].
  apply faultText_date in Htext as ->.
  apply firstFault_sound in Hf.
  apply projectRows_rows in Hrows.
  destruct (Forall2_lookup_r _ _ _ _ _ Hrows Hi)
    as ([r v] & Hp & m & b & rest & _ & _ & Hb & ->).
  rewrite strip_rowCells in Hf. simpl in Hf, Hb.
  injection Hf as Hf.
  exists r, v. split_and!; [lia| |].
  - by replace (i + 1 - 1) with i by lia.
  - by destruct (scheduledDate v) as [[|? ?]|].
Qed.

(** X11. Results that went through [scheduleCampaign], and then through
    any number of syncs, are never refused by the export for an empty
    date, at any row. *)
Theorem scheduled_never_date_empty host results settings syncs k :
  generateCSVString (syncAll syncs (scheduleCampaign host results settings))
  <> inl (Error (rowMessage k "Date empty.")).
Proof.
  intros (r & v & _ & Hp & Hf)%date_empty_reached.
  pose proof (allDated_syncAll syncs _
                (allDated_scheduleCampaign host results settings)) as Hall.
  destruct (Forall_lookup_1 _ _ _ _ Hall Hp) as (d & Hd & Hne).
  simpl in Hd. rewrite Hd in Hf. by destruct d.
Qed.

End Dated.

(** ** Quoting *)

Section Quoting.

Lemma countQuotes_app a b :
  countQuotes (a +:+ b) = countQuotes a + countQuotes b.
Proof.
  induction a as [|c a IH]; [done|].
  rewrite append_cons. simpl. rewrite IH. lia.
Qed.

Lemma countQuotes_doubleQuotes s :
  countQuotes (doubleQuotes s) = 2 * countQuotes s.
Proof.
  induction s as [|c s IH]; [done|]. simpl.
  destruct (Ascii.eqb c dquote) eqn:Hc; simpl; rewrite ?Hc, IH; simpl; lia.
Qed.

Lemma doubleQuotes_inj s s' : doubleQuotes s = doubleQuotes s' -> s = s'.
Proof.
  revert s'. induction s as [|c s IH]; intros [|c' s']; simpl.
  - done.
  - by destruct (Ascii.eqb c' dquote).
  - by destruct (Ascii.eqb c dquote).
  - destruct (Ascii.eqb c dquote) eqn:Hc, (Ascii.eqb c' dquote) eqn:Hc'.
    + apply Ascii.eqb_eq in Hc, Hc'. subst.
      intros [= H]. by rewrite (IH s' H).
    + intros [= <- _]. by rewrite Ascii.eqb_refl in Hc'.
    + intros [= -> _]. by rewrite Ascii.eqb_refl in Hc.
    + intros [= -> H]. by rewrite (IH s' H).
Qed.

(** X12. Wrapping a value in double quotes and stripping the quotes at
    the two ends, as the validation does, gives the value back, whatever
    quotes it holds; a cell made by doubling the quotes of a value and
    wrapping it holds twice as many double quotes as the value, and two
    more; and two values with the same such cell are the same value. *)
Theorem quoted_cells_roundtrip (s s' : string) :
  stripQuotes (quoted s) = s /\
  countQuotes (quoted (doubleQuotes s)) = 2 * countQuotes s + 2 /\
  (quoted (doubleQuotes s) = quoted (doubleQuotes s') -> s = s').
Proof.
  split_and!.
  - apply stripQuotes_quoted.
  - unfold quoted. cbn [countQuotes].
    rewrite Ascii.eqb_refl, countQuotes_app, countQuotes_doubleQuotes.
    simpl. lia.
  - intros H. apply (f_equal stripQuotes) in H.
    rewrite !stripQuotes_quoted in H. by apply doubleQuotes_inj.
Qed.

Lemma quoted_cells_roundtrip_witness :
  let s := String dquote "x" in
  stripQuotes (quoted s) = s /\
  countQuotes (quoted (doubleQuotes s)) = 4 /\
  s = s.
Proof.
  intros s.
  destruct (quoted_cells_roundtrip s s) as (H1 & H2 & H3).
  split_and!; [exact H1 | exact H2 | apply H3; reflexivity].
Defined.

End Quoting.

(** ** The public host *)

Section PublicHost.

Import App ImageHost.

Lemma noColon_app a b : noColon a -> noColon b -> noColon (a +:+ b).
Proof.
  intros Ha Hb. induction a as [|c a IH]; [done|].
  rewrite append_cons. destruct Ha as [Hc Ha]. split; [done | by apply IH].
Qed.

Lemma noColon_substring n m s :
  noColon s -> noColon (String.substring n m s).
Proof.
  revert n m. induction s as [|c s IH]; intros [|n] [|m] H; simpl; try done.
  - destruct H as [Hc H]. split; [done | by apply IH].
  - destruct H as [_ H]. by apply IH.
  - destruct H as [_ H]. by apply IH.
Qed.

Lemma prefix_noColon p s : String.prefix p s = true -> noColon s -> noColon p.
Proof.
  revert s. induction p as [|c p IH]; intros [|c' s]; simpl; try done.
  destruct (ascii_dec c c') as [->|]; [|done].
  intros Hp [Hc Hs]. split; [done | by eapply IH].
Qed.

Lemma includes_noColon p s :
  ~ noColon p -> noColon s -> includes p s = false.
Proof.
  intros Hp. induction s as [|c s IH]; intros Hs.
  - rewrite includes_unfold.
    destruct (String.prefix p "") eqn:E; [|done].
    destruct Hp. by eapply prefix_noColon.
  - rewrite includes_unfold.
    destruct (String.prefix p (String c s)) eqn:E.
    + destruct Hp. by eapply prefix_noColon.
    + simpl. apply IH. by destruct Hs.
Qed.

Lemma includes_skip p c s :
  String.prefix p (String c s) = false ->
  includes p (String c s) = includes p s.
Proof. intros H. by rewrite includes_unfold, H. Qed.

(** X13. [uploadToPublicHost] never throws: the security check it makes
    on the URL it has built cannot fail. The URL starts with https://
    and, the two random strings holding no colon, holds neither a
    data-image nor a blob marker; a variation synced with it is no
    longer without a public HTTPS URL. *)
Theorem uploadToPublicHost_url (draw1 draw2 base64Data : string) :
  exists url,
    uploadToPublicHost draw1 draw2 base64Data = inr url /\
    startsWith "https://" url = true /\
    (forall x b, ~ lacksPublicHttps (withSync x b url)) /\
    (noColon draw1 -> noColon draw2 ->
     includes "data:image" url = false /\ includes "blob:" url = false).
Proof.
  unfold uploadToPublicHost.
  set (assetId := substring 2 15 draw1 +:+ substring 2 15 draw2).
  set (url := "https://cdn.pinflow-pro.ai/v2/production/assets/pin_"
              +:+ assetId +:+ ".png").
  assert (startsWith "https://" url = true) as Hs by reflexivity.
  exists url. rewrite Hs. cbn [negb]. split_and!; [done..| |].
  - intros x b [Hn | (s & Hsome & Hf)]; [done|].
    injection Hsome as <-. by rewrite Hs in Hf.
  - intros H1 H2.
    assert (noColon (assetId +:+ ".png")) as Hid.
    { apply noColon_app; [|by repeat split].
      apply noColon_app; by apply noColon_substring. }
    subst url. split.
    + repeat (rewrite append_cons, includes_skip by reflexivity).
      change ("" +:+ ?s) with s.
      apply includes_noColon; [|done]. intros H. simpl in H.
      intuition congruence.
    + repeat (rewrite append_cons, includes_skip by reflexivity).
      change ("" +:+ ?s) with s.
      apply includes_noColon; [|done]. intros H. simpl in H.
      intuition congruence.
Qed.

Lemma uploadToPublicHost_url_witness :
  exists url,
    uploadToPublicHost "0.4fzyo82mvyr" "0.kq3j5x8dw2a"
      "data:image/png;base64,AAAA" = inr url /\
    startsWith "https://" url = true /\
    includes "data:image" url = false /\ includes "blob:" url = false.
Proof.
  destruct (uploadToPublicHost_url "0.4fzyo82mvyr" "0.kq3j5x8dw2a"
              "data:image/png;base64,AAAA") as (url & H1 & H2 & _ & H4).
  exists url. split_and!; [exact H1 | exact H2 | apply H4.. ];
    repeat split; discriminate.
Defined.

End PublicHost.

(** ** The start date as typed *)

Section StartDateText.

Local Open Scope Z_scope.

Lemma years_text : holdsFrom yearText (Z.to_nat 9000) 1000 = true.
Proof. vm_cast_no_check (eq_refl true). Qed.

Lemma String_of_year y :
  1000 <= y <= 9999 -> String_of (Num y) = fourDigits y.
Proof.
  intros Hy. apply String.eqb_eq.
  apply (holdsFrom_sound yearText (Z.to_nat 9000) 1000 years_text). lia.
Qed.

Lemma days_from_civil_bound y m d :
  0 <= y <= 9999 -> validDate y m d ->
  -720000 <= days_from_civil y m d <= 3000000.
Proof.
  intros Hy [Hm Hd]. pose proof (DaysInMonth_le_31 y m).
  unfold days_from_civil.
  destruct (Z.leb_spec m 2), (Z.gtb_spec m 2); try lia;
    Z.to_euclidean_division_equations; lia.
Qed.

Lemma parseIsoDate_isoDate y m d :
  0 <= y <= 9999 -> validDate y m d ->
  parseIsoDate (isoDate y m d) = Some (days_from_civil y m d * msPerDay).
Proof.
  intros Hy [Hm Hd]. pose proof (DaysInMonth_le_31 y m).
  change (isoDate y m d)
    with (String (digitChar (y / 1000))
            (String (digitChar ((y / 100) mod 10))
               (String (digitChar ((y mod 100) / 10))
                  (String (digitChar ((y mod 100) mod 10))
                     (String "-"
                        (String (digitChar (m / 10))
                           (String (digitChar (m mod 10))
                              (String "-"
                                 (String (digitChar (d / 10))
                                    (String (digitChar (d mod 10))
                                       EmptyString)))))))))).
  unfold parseIsoDate.
  rewrite !digit_digitChar by (Z.to_euclidean_division_equations; lia).
  replace (y / 1000 * 1000 + y / 100 mod 10 * 100
           + y mod 100 / 10 * 10 + y mod 100 mod 10) with y
    by (Z.to_euclidean_division_equations; lia).
  replace (m / 10 * 10 + m mod 10) with m
    by (Z.to_euclidean_division_equations; lia).
  replace (d / 10 * 10 + d mod 10) with d
    by (Z.to_euclidean_division_equations; lia).
  destruct (Z.leb_spec 1 m); [|lia].
  destruct (Z.leb_spec m 12); [|lia].
  destruct (Z.leb_spec 1 d); [|lia].
  destruct (Z.leb_spec d (DaysInMonth y m)); [|lia].
  simpl. unfold MakeDate. f_equal. lia.
Qed.

Lemma parse_isoDate host y m d :
  0 <= y <= 9999 -> validDate y m d ->
  parse host (isoDate y m d) = Num (days_from_civil y m d * msPerDay).
Proof.
  intros Hy Hv. unfold parse. rewrite parseIsoDate_isoDate by done.
  apply TimeClip_in_range.
  pose proof (days_from_civil_bound y m d Hy Hv).
  unfold maxTime, msPerDay. lia.
Qed.

Lemma formatSlot_date y m d h mi :
  1000 <= y <= 9999 -> validDate y m d ->
  formatSlot (y, m, d) h mi
  = isoDate y m d +:+ " " +:+ pad (Num h) +:+ ":" +:+ pad (Num mi).
Proof.
  intros Hy [Hm Hd]. pose proof (DaysInMonth_le_31 y m).
  unfold formatSlot, isoDate.
  rewrite String_of_year, !pad_twoDigits by lia.
  by rewrite !append_assoc.
Qed.

(** X14. A start date typed in the date-only form, with a four-digit
    year, is read as midnight UTC. For an item whose slot can be set on
    the host: if local time is at or ahead of UTC at that instant (by
    less than a day), the item is dated [dayOffset] days after the start
    date, and the items of the first day carry the start date as it was
    typed; if local time is behind UTC at that instant, the item is
    dated one day earlier than that. *)
Theorem start_date_local_day host y m d p index :
  1000 <= y <= 9999 -> validDate y m d -> 1 <= p ->
  let t := days_from_civil y m d * msPerDay in
  parse host (isoDate y m d) = Num t /\
  (slotSettable host t p index ->
   (0 <= LocalTZA host t true < msPerDay ->
    slotDateStr host (parse host (isoDate y m d)) (Num p) index
    = formatSlot
        (civil_from_days (days_from_civil y m d + dayOffsetOf p index))
        (hourOf p index) (minuteOf p index) /\
    ((index < Z.to_nat p)%nat ->
     slotDateStr host (parse host (isoDate y m d)) (Num p) index
     = isoDate y m d +:+ " " +:+ pad (Num (hourOf p index)) +:+ ":" +:+
       pad (Num (minuteOf p index)))) /\
   (- msPerDay <= LocalTZA host t true < 0 ->
    slotDateStr host (parse host (isoDate y m d)) (Num p) index
    = formatSlot
        (civil_from_days (days_from_civil y m d + dayOffsetOf p index - 1))
        (hourOf p index) (minuteOf p index))).
Proof.
  intros Hy Hv Hp t.
  assert (0 <= y <= 9999) as Hy' by lia.
  rewrite (parse_isoDate host y m d Hy' Hv). fold t.
  split; [done|]. intros Hset.
  assert (forall q, q * msPerDay <= LocalTZA host t true < (q + 1) * msPerDay ->
            slotDateStr host (Num t) (Num p) index
            = formatSlot
                (civil_from_days
                   (days_from_civil y m d + q + dayOffsetOf p index))
                (hourOf p index) (minuteOf p index)) as Hslot.
  { intros q Hq. rewrite slotDateStr_text_eq by done.
    do 2 f_equal. unfold LocalTime, Day.
    assert ((t + LocalTZA host t true) / msPerDay
            = days_from_civil y m d + q) as ->; [|done].
    symmetry.
    apply (Z.div_unique _ _ _ (LocalTZA host t true - q * msPerDay));
      unfold t, msPerDay in *; lia. }
  split.
  - intros Htz. pose proof (Hslot 0 ltac:(lia)) as H0.
    rewrite Z.add_0_r in H0. split; [done|].
    intros Hfirst. rewrite H0.
    assert (dayOffsetOf p index = 0) as ->.
    { unfold dayOffsetOf. apply Z.div_small. lia. }
    rewrite Z.add_0_r, (civil_of_days_from_civil y m d Hv).
    by apply formatSlot_date.
  - intros Htz. rewrite (Hslot (-1) ltac:(lia)). do 2 f_equal. lia.
Qed.

Lemma start_date_local_day_witness :
  slotDateStr hostUTC (parse hostUTC (isoDate 2024 2 29)) (Num 3) 1
  = isoDate 2024 2 29 +:+ " " +:+ pad (Num (hourOf 3 1)) +:+ ":" +:+
    pad (Num (minuteOf 3 1)).
Proof.
  refine (proj2 (proj1 (proj2 (start_date_local_day hostUTC 2024 2 29 3 1
                                 _ _ _) _) _) _).
  - lia.
  - split; [lia|]. vm_compute. split; discriminate.
  - lia.
  - split; (split; [vm_compute; discriminate | reflexivity]).
  - vm_compute. split; [discriminate | reflexivity].
  - vm_compute. lia.
Defined.

End StartDateText.

(** ** Slots follow the index *)

Section SlotOrder.

Local Open Scope Z_scope.



End SlotOrder.
